(** * fairpy: valuation matrices ([valuations.py])

    A shallow embedding of the class [ValuationMatrix] and of the part of
    numpy it calls, followed by the properties of its methods.

    Modelling choices.
    - Python objects live in a store ([heap]): a [ValuationMatrix] holds a
      reference [_v] to its backing array, so that construction from another
      instance shares the array and the reduction methods allocate new
      objects.  Methods are functions in a state-and-exception monad [M].
    - Cells are numpy scalars of a type [T] with numpy's [+] and [==]
      ([Dtype]).  Nothing is assumed of these operations: a property that
      needs one (no NaN cell, a symmetric [==]) states it.  Two dtypes are
      given: [int64], whose addition wraps around, and [float64], the
      binary64 numbers with their rounding and their NaN.
    - A list of lists given to the constructor holds scalars of the dtype,
      which [np.array] stores as they are; the choice of a common dtype for
      a table of Python numbers of several kinds is outside the model.
    - Indices are Python integers ([Z]): numpy counts a negative index from
      the end of the axis and raises [IndexError] outside [-n, n). *)

From stdpp Require Import base option list gmap.
From Stdlib Require Import ZArith Lia PrimFloat.

Local Open Scope Z_scope.

(** ** Exceptions and results *)

Inductive exn : Type :=
| IndexError
| ValueError
| TypeError
| AttributeError
| AxisError.

Inductive result (A : Type) : Type :=
| Ok (x : A)
| Raise (e : exn).

Arguments Ok {A} x.
Arguments Raise {A} e.

Definition result_bind {A B : Type} (r : result A) (k : A → result B) : result B :=
  match r with
  | Ok x => k x
  | Raise e => Raise e
  end.

(** ** Scalars *)

(** The scalars of a numpy dtype: [scalar_zero] is Python's [0] converted
    to the dtype, as numpy does when it adds [0] and a scalar, [scalar_add]
    is [+] and [scalar_eqb] is [==]. *)
Class Dtype (T : Type) : Type := {
  scalar_zero : T;
  scalar_add : T → T → T;
  scalar_eqb : T → T → bool
}.

(** A number returned to Python: an [int], or a scalar of the dtype. *)
Inductive pynumber (T : Type) : Type :=
| PyInt (z : Z)
| NpScalar (x : T).

Arguments PyInt {T} z.
Arguments NpScalar {T} x.

(** *** 64-bit integers *)

Definition in_int64 (z : Z) : bool := (- 2 ^ 63 <=? z) && (z <? 2 ^ 63).

(** The representative in [-2^63, 2^63) of an integer modulo 2^64. *)
Definition wrap64 (z : Z) : Z := (z + 2 ^ 63) mod 2 ^ 64 - 2 ^ 63.

Record int64 : Type := Int64 {
  int64_val : Z;
  int64_range : Is_true (in_int64 int64_val)
}.

(** The proof [I] when the test computes to [true]. *)
Definition canonical (b : bool) : Is_true b → Is_true b :=
  match b with
  | true => λ _, I
  | false => λ p, p
  end.

(** The 64-bit integer of an integer, with wrap-around ([wrap64] is always
    in range, lemma [int64_of_Z_val]). *)
Definition int64_of_Z (z : Z) : int64 :=
  match decide (Is_true (in_int64 (wrap64 z))) with
  | left p => Int64 (wrap64 z) (canonical _ p)
  | right _ => Int64 0 I
  end.

#[global] Instance int64_dtype : Dtype int64 := {
  scalar_zero := int64_of_Z 0;
  scalar_add x y := int64_of_Z (int64_val x + int64_val y);
  scalar_eqb x y := int64_val x =? int64_val y
}.

(** *** Binary64 floating-point numbers *)

Abbreviation float64 := PrimFloat.float.

#[global] Instance float64_dtype : Dtype float64 := {
  scalar_zero := PrimFloat.zero;
  scalar_add := PrimFloat.add;
  scalar_eqb := PrimFloat.eqb
}.

(** ** The numpy operations used by the class *)

Module np.

(** A two-dimensional array of shape [(length rows, ncols)].  The column
    count is stored, as numpy stores the shape: an array without rows
    still has one. *)
Record ndarray (T : Type) : Type := NdArray { rows : list (list T); ncols : nat }.

Arguments NdArray {T} rows ncols.
Arguments rows {T} n.
Arguments ncols {T} n.

Definition shape {T : Type} (a : ndarray T) : nat * nat := (length (rows a), ncols a).

(** Every row has [ncols] cells. *)
Definition rectangular {T : Type} (a : ndarray T) : Prop :=
  Forall (λ r, length r = ncols a) (rows a).

(** Integer indexing along an axis of size [n]. *)
Definition index (n : nat) (i : Z) : result nat :=
  if (i <? - Z.of_nat n) || (Z.of_nat n <=? i) then Raise IndexError
  else Ok (Z.to_nat (if i <? 0 then i + Z.of_nat n else i)).

(** [a[i]] on one axis: the rows of a 2-D array, or the cells of a row. *)
Definition getitem {A : Type} (l : list A) (i : Z) : result A :=
  result_bind (index (length l) i) (λ k,
    match l !! k with
    | Some x => Ok x
    | None => Raise IndexError
    end).

(** [np.array(table)] for a list of lists of scalars of one dtype, which
    are stored as they are.  A ragged table is refused ([ValueError], as
    numpy 1.24 and later do).  For the empty list numpy builds an array of
    shape [(0,)]; here it is the array without rows and without columns:
    both have length 0 and no row 0. *)
Definition array {T : Type} (table : list (list T)) : result (ndarray T) :=
  match table with
  | [] => Ok (NdArray [] 0)
  | r :: _ =>
      if forallb (λ r', Nat.eqb (length r') (length r)) table
      then Ok (NdArray table (length r))
      else Raise ValueError
  end.

(** [np.delete(arr, obj, axis)] for an integer [obj]: a new array without
    row [obj] ([axis = 0]) or without column [obj] ([axis = 1]). *)
Definition delete {T : Type} (arr : ndarray T) (obj : Z) (axis : nat) : result (ndarray T) :=
  match axis with
  | 0%nat =>
      result_bind (index (length (rows arr)) obj) (λ k,
        Ok (NdArray (base.delete k (rows arr)) (ncols arr)))
  | 1%nat =>
      result_bind (index (ncols arr) obj) (λ k,
        Ok (NdArray (base.delete k <$> rows arr) (ncols arr - 1)))
  | _ => Raise AxisError
  end.

(** [(r1 == r2).all()] on two rows of the same length: [==] cell by
    cell. *)
Definition row_equal {T : Type} `{!Dtype T} (r1 r2 : list T) : bool :=
  forallb (λ p, scalar_eqb (fst p) (snd p)) (zip r1 r2).

(** [np.array_equal(a1, a2)]: the shapes are the same and all cells are
    equal under [==]. *)
Definition array_equal {T : Type} `{!Dtype T} (a1 a2 : ndarray T) : bool :=
  if decide (shape a1 = shape a2)
  then forallb (λ p, row_equal (fst p) (snd p)) (zip (rows a1) (rows a2))
  else false.

End np.

(** Python's builtin [sum] on a list of scalars: the [int] 0 on the empty
    list, and otherwise [0 + x1 + x2 + ...], added from the left. *)
Definition sum {T : Type} `{!Dtype T} (l : list T) : pynumber T :=
  match l with
  | [] => PyInt 0
  | x :: l' => NpScalar (fold_left scalar_add l' (scalar_add scalar_zero x))
  end.

(** ** The object store *)

Abbreviation loc := positive.

Record ValuationMatrix : Type := mkValuationMatrix {
  _v : loc;
  num_of_agents : Z;
  num_of_objects : Z
}.

Inductive object (T : Type) : Type :=
| ObjArray (a : np.ndarray T)
| ObjMatrix (m : ValuationMatrix).

Arguments ObjArray {T} a.
Arguments ObjMatrix {T} m.

Abbreviation heap T := (gmap loc (object T)).

(** An argument of the constructor: a list of lists (a value), or a
    reference to an array or to another matrix. *)
Inductive pyval (T : Type) : Type :=
| PyList (table : list (list T))
| PyRef (l : loc).

Arguments PyList {T} table.
Arguments PyRef {T} l.

(** ** The monad of methods: state and exceptions *)

Definition M (T A : Type) : Type := heap T → result A * heap T.

#[global] Instance M_ret {T : Type} : MRet (M T) := λ A x h, (Ok x, h).

#[global] Instance M_bind {T : Type} : MBind (M T) := λ A B k c h,
  match c h with
  | (Ok x, h') => k x h'
  | (Raise e, h') => (Raise e, h')
  end.

Definition lift {T A : Type} (r : result A) : M T A := λ h, (r, h).

Definition alloc {T : Type} (o : object T) : M T loc := λ h,
  let l := fresh (dom h) in (Ok l, <[l := o]> h).

(** Reading through a reference that is expected to hold an array. *)
Definition load_array {T : Type} (l : loc) : M T (np.ndarray T) := λ h,
  match h !! l with
  | Some (ObjArray a) => (Ok a, h)
  | _ => (Raise TypeError, h)
  end.

(** Reading the attributes of a [ValuationMatrix]. *)
Definition load_matrix {T : Type} (l : loc) : M T ValuationMatrix := λ h,
  match h !! l with
  | Some (ObjMatrix m) => (Ok m, h)
  | _ => (Raise AttributeError, h)
  end.

(** The elements of a list comprehension, evaluated from left to right. *)
Fixpoint comprehension {T A B : Type} (f : A → M T B) (l : list A) : M T (list B) :=
  match l with
  | [] => mret []
  | x :: l' => y ← f x; ys ← comprehension f l'; mret (y :: ys)
  end.

(** ** The class [ValuationMatrix] *)

(** [__init__]: the object is entered in the store once its three
    attributes are known; when [valuation_matrix[0]] raises, no object is
    returned. *)
Definition ValuationMatrix_init {T : Type} (valuation_matrix : pyval T) : M T loc :=
  arr ← match valuation_matrix with
        | PyList table => a ← lift (np.array table); alloc (ObjArray a)
        | PyRef l => λ h,
            match h !! l with
            | Some (ObjMatrix other) => (Ok (_v other), h)
            | _ => (Ok l, h)
            end
        end;
  a ← load_array arr;
  let agents := Z.of_nat (length (np.rows a)) in
  row0 ← lift (np.getitem (np.rows a) 0);
  let objects := Z.of_nat (length row0) in
  alloc (ObjMatrix (mkValuationMatrix arr agents objects)).

Definition agents {T : Type} (self : loc) : M T (list Z) :=
  m ← load_matrix self;
  mret (map Z.of_nat (seq 0 (Z.to_nat (num_of_agents m)))).

Definition objects {T : Type} (self : loc) : M T (list Z) :=
  m ← load_matrix self;
  mret (map Z.of_nat (seq 0 (Z.to_nat (num_of_objects m)))).

(** [self._v[agent][object]]. *)
Definition value_at {T : Type} (self : loc) (agent object : Z) : M T T :=
  m ← load_matrix self;
  a ← load_array (_v m);
  row ← lift (np.getitem (np.rows a) agent);
  lift (np.getitem row object).

Definition agent_value_for_bundle {T : Type} `{!Dtype T}
    (self : loc) (agent : Z) (bundle : option (list Z)) : M T (pynumber T) :=
  match bundle with
  | None => mret (PyInt 0)
  | Some b => vals ← comprehension (λ object, value_at self agent object) b; mret (sum vals)
  end.

Definition without_agent {T : Type} (self : loc) (agent : Z) : M T loc :=
  m ← load_matrix self;
  a ← load_array (_v m);
  a' ← lift (np.delete a agent 0);
  l ← alloc (ObjArray a');
  ValuationMatrix_init (PyRef l).

Definition without_object {T : Type} (self : loc) (object : Z) : M T loc :=
  m ← load_matrix self;
  a ← load_array (_v m);
  a' ← lift (np.delete a object 1);
  l ← alloc (ObjArray a');
  ValuationMatrix_init (PyRef l).

Definition equals {T : Type} `{!Dtype T} (self other : loc) : M T bool :=
  m ← load_matrix self;
  a ← load_array (_v m);
  m' ← load_matrix other;
  a' ← load_array (_v m');
  mret (np.array_equal a a').

(** ** Element and row access *)

(** A key of [__getitem__]: a tuple of integers, or one integer. *)
Inductive key : Type :=
| KeyTuple (ks : list Z)
| KeyInt (k : Z).

(** What [__getitem__] returns: a cell, or the row of an agent (the cells of
    the view that numpy returns). *)
Inductive item (T : Type) : Type :=
| ItemValue (x : T)
| ItemRow (row : list T).

Arguments ItemValue {T} x.
Arguments ItemRow {T} row.

(** [key[0]] and [key[1]] on a tuple. *)
Definition tuple_getitem (ks : list Z) (i : nat) : result Z :=
  match ks !! i with
  | Some k => Ok k
  | None => Raise IndexError
  end.

(** [__getitem__]: [self._v[key[0]][key[1]]] for a tuple, [self._v[key]]
    otherwise. *)
Definition ValuationMatrix_getitem {T : Type} (self : loc) (k : key) : M T (item T) :=
  match k with
  | KeyTuple ks =>
      m ← load_matrix self;
      a ← load_array (_v m);
      k0 ← lift (tuple_getitem ks 0);
      row ← lift (np.getitem (np.rows a) k0);
      k1 ← lift (tuple_getitem ks 1);
      x ← lift (np.getitem row k1);
      mret (ItemValue x)
  | KeyInt i =>
      m ← load_matrix self;
      a ← load_array (_v m);
      row ← lift (np.getitem (np.rows a) i);
      mret (ItemRow row)
  end.

(** ** Specification vocabulary *)

(** [self] is a [ValuationMatrix] of the store [h], with attributes [m] and
    backing array [a]: what the constructor establishes on a rectangular
    array (lemma [init_array_is_matrix] below). *)
Record is_matrix {T : Type} (h : heap T) (self : loc) (m : ValuationMatrix)
    (a : np.ndarray T) : Prop :=
  IsMatrix {
    im_object : h !! self = Some (ObjMatrix m);
    im_array : h !! _v m = Some (ObjArray a);
    im_rectangular : np.rectangular a;
    im_first_row : np.rows a ≠ [];
    im_agents : num_of_agents m = Z.of_nat (length (np.rows a));
    im_objects : num_of_objects m = Z.of_nat (np.ncols a)
  }.

(** The cell in row [i] and column [j], for indices counted from 0. *)
Definition cell {T : Type} (a : np.ndarray T) (i j : nat) : option T :=
  np.rows a !! i ≫= (.!! j).

(** The cells at one position of two arrays are there and compare equal
    under [==]. *)
Definition cell_eqb {T : Type} `{!Dtype T} (a a' : np.ndarray T) (i j : nat) : bool :=
  match cell a i j, cell a' i j with
  | Some x, Some y => scalar_eqb x y
  | _, _ => false
  end.

(** Every cell compares equal to itself: the array holds no NaN. *)
Definition no_nan {T : Type} `{!Dtype T} (rows : list (list T)) : Prop :=
  Forall (Forall (λ x, scalar_eqb x x = true)) rows.

(** The store [h'] extends [h]: every object of [h] is in [h'], unchanged. *)
Definition extends {T : Type} (h h' : heap T) : Prop :=
  ∀ l o, h !! l = Some o → h' !! l = Some o.

(** A computation that leaves every object of the store as it is. *)
Definition grows {T A : Type} (c : M T A) : Prop := ∀ h, extends h (snd (c h)).

(** A computation that returns the store it was given. *)
Definition read_only {T A : Type} (c : M T A) : Prop := ∀ h, snd (c h) = h.


(** The results of a comprehension whose body is a function of the element
    alone: the first exception ends it. *)
Fixpoint collect {A B : Type} (g : A → result B) (l : list A) : result (list B) :=
  match l with
  | [] => Ok []
  | x :: l' =>
      result_bind (g x) (λ y, result_bind (collect g l') (λ ys, Ok (y :: ys)))
  end.

(** The outcome of [arr[agent][object]] on an array. *)
Definition array_value {T : Type} (a : np.ndarray T) (agent object : Z) : result T :=
  result_bind (np.getitem (np.rows a) agent) (λ row, np.getitem row object).

(** The index, before a removal at [k], of what has index [j] after it. *)
Definition skip_index (k j : Z) : Z := if j <? k then j else j + 1.

(** *** Sums of 64-bit integers *)

(** The integer in a cell of an [int64] array. *)
Definition cell_value (a : np.ndarray int64) (i j : nat) : Z :=
  default 0 (int64_val <$> cell a i j).

(** The total of a bundle, one term per element of the list: an integer,
    without wrap-around. *)
Definition bundle_total (a : np.ndarray int64) (i : nat) (bundle : list Z) : Z :=
  foldr (λ o acc, cell_value a i (Z.to_nat o) + acc) 0 bundle.

(** How many times the object [j] occurs in a bundle. *)
Definition occurrences (j : nat) (bundle : list Z) : nat :=
  length (filter (λ o, o = Z.of_nat j) bundle).

(** The total of a bundle, one term per object, weighted by its number of
    occurrences. *)
Definition weighted_total (a : np.ndarray int64) (i : nat) (bundle : list Z) : Z :=
  foldr (λ j acc, Z.of_nat (occurrences j bundle) * cell_value a i j + acc) 0
        (seq 0 (np.ncols a)).

(** What Python receives for a total [z] computed on [int64] cells: the
    [int] 0 for the empty bundle, and otherwise the scalar of [z] modulo
    2^64. *)
Definition int64_sum (bundle : list Z) (z : Z) : pynumber int64 :=
  match bundle with
  | [] => PyInt 0
  | _ :: _ => NpScalar (int64_of_Z z)
  end.

(** ** The doctests of the class, and other concrete stores *)

(** A table of 64-bit integers. *)
Definition int64_table (table : list (list Z)) : list (list int64) :=
  map (map int64_of_Z) table.

Definition doctest_table : list (list int64) := int64_table [[1; 4; 7]; [6; 3; 0]].

(** The store after [v = ValuationMatrix([[1,4,7],[6,3,0]])], and [v]. *)
Definition doctest_heap : heap int64 := snd (ValuationMatrix_init (PyList doctest_table) ∅).
Definition doctest_v : loc := 2%positive.

(** The store after [v.without_agent(0)], and the matrix returned, which
    has one agent. *)
Definition reduced_heap : heap int64 := snd (without_agent doctest_v 0 doctest_heap).
Definition reduced_v : loc := 4%positive.

(** The store after [v = ValuationMatrix([[1,4,7],[6,3,0]])] and
    [c = ValuationMatrix([[1,4,7],[6,3,0]])], and [c]. *)
Definition copy_heap : heap int64 :=
  snd (ValuationMatrix_init (PyList doctest_table) doctest_heap).
Definition copy_c : loc := 4%positive.

(** The store after [v = ValuationMatrix([[1,4,7],[6,3,0]])] and
    [d = np.array([[1,4,7],[6,3,0]])], and [d]. *)
Definition dense_heap : heap int64 :=
  snd ((a ← lift (np.array doctest_table); alloc (ObjArray a)) doctest_heap).
Definition dense_d : loc := 3%positive.

(** The store after [w = ValuationMatrix([[6,3,0]])], a matrix with one
    agent, and [w]. *)
Definition single_table : list (list int64) := int64_table [[6; 3; 0]].
Definition single_heap : heap int64 := snd (ValuationMatrix_init (PyList single_table) ∅).
Definition single_w : loc := 2%positive.

(** The store after [u = ValuationMatrix([[4],[9]])], a matrix with one
    object, and [u]. *)
Definition column_table : list (list int64) := int64_table [[4]; [9]].
Definition column_heap : heap int64 := snd (ValuationMatrix_init (PyList column_table) ∅).
Definition column_u : loc := 2%positive.

(** The store after [b = ValuationMatrix([[2**62, 1]])], and [b]. *)
Definition big_table : list (list int64) := int64_table [[2 ^ 62; 1]].
Definition big_heap : heap int64 := snd (ValuationMatrix_init (PyList big_table) ∅).
Definition big_b : loc := 2%positive.

(** The store after [f = ValuationMatrix([[nan, 1.0]])],
    [d = np.array([[nan, 1.0]])], [g = ValuationMatrix(d)] and
    [k = ValuationMatrix(f)], with [f], [g] and [k]. *)
Definition nan_table : list (list float64) := [[PrimFloat.nan; PrimFloat.one]].
Definition nan_heap : heap float64 :=
  snd ((f ← ValuationMatrix_init (PyList nan_table);
        d ← (a ← lift (np.array nan_table); alloc (ObjArray a));
        g ← ValuationMatrix_init (PyRef d);
        ValuationMatrix_init (PyRef f)) ∅).
Definition nan_f : loc := 2%positive.
Definition nan_g : loc := 4%positive.
Definition nan_k : loc := 5%positive.

(** The store after [r = ValuationMatrix([[0.5, 2.0**53, -2.0**53]])], a
    matrix of binary64 numbers, and [r]. *)
Definition float_table : list (list float64) :=
  [[0.5; 9007199254740992; -9007199254740992]%float].
Definition float_heap : heap float64 := snd (ValuationMatrix_init (PyList float_table) ∅).
Definition float_r : loc := 2%positive.

(** The six conditions of [is_matrix] on a concrete store. *)
Ltac solve_is_matrix :=
  constructor; [reflexivity | reflexivity | repeat constructor | discriminate
               | reflexivity | reflexivity].

(** * Properties *)

Example doctest_init :
  ValuationMatrix_init (PyList doctest_table) ∅ = (Ok doctest_v, doctest_heap)
  ∧ doctest_heap !! doctest_v = Some (ObjMatrix (mkValuationMatrix 1%positive 2 3)).
Proof. split; reflexivity. Qed.

Example doctest_bundle_0_2 :
  fst (agent_value_for_bundle doctest_v 0 (Some [0; 2]) doctest_heap)
  = Ok (NpScalar (int64_of_Z 8)).
Proof. reflexivity. Qed.

Example doctest_bundle_1_0 :
  fst (agent_value_for_bundle doctest_v 1 (Some [1; 0]) doctest_heap)
  = Ok (NpScalar (int64_of_Z 9)).
Proof. reflexivity. Qed.

Example doctest_bundle_None :
  fst (agent_value_for_bundle doctest_v 1 None doctest_heap) = Ok (PyInt 0).
Proof. reflexivity. Qed.

Example doctest_without_agent :
  let (r, h) := without_agent doctest_v 0 doctest_heap in
  r = Ok 4%positive
  ∧ h !! 4%positive = Some (ObjMatrix (mkValuationMatrix 3%positive 1 3))
  ∧ h !! 3%positive = Some (ObjArray (np.NdArray (int64_table [[6; 3; 0]]) 3)).
Proof. vm_compute. auto. Qed.

Example doctest_without_object :
  let (r, h) := without_object doctest_v 1 doctest_heap in
  r = Ok 4%positive
  ∧ h !! 4%positive = Some (ObjMatrix (mkValuationMatrix 3%positive 2 2))
  ∧ h !! 3%positive = Some (ObjArray (np.NdArray (int64_table [[1; 7]; [6; 0]]) 2)).
Proof. vm_compute. auto. Qed.

(** The constructor raises on a table without rows. *)
Example init_no_rows :
  fst (ValuationMatrix_init (PyList ([] : list (list int64))) ∅) = Raise IndexError.
Proof. reflexivity. Qed.

(** [equals] on matrices that differ in one cell, and in shape. *)
Example equals_other_cell :
  fst ((x ← ValuationMatrix_init (PyList (int64_table [[1; 4]; [6; 3]]));
        y ← ValuationMatrix_init (PyList (int64_table [[1; 4]; [6; 2]]));
        equals x y) ∅) = Ok false.
Proof. reflexivity. Qed.

Example equals_other_shape :
  fst ((x ← ValuationMatrix_init (PyList (int64_table [[1; 4]; [6; 3]]));
        y ← ValuationMatrix_init (PyList (int64_table [[1; 4]]));
        equals x y) ∅) = Ok false.
Proof. reflexivity. Qed.

(** The sum of binary64 numbers depends on the order of the additions, and
    a NaN is not equal to itself. *)
Example float64_sum_order :
  sum [0.5; 9007199254740992; -9007199254740992]%float = NpScalar 0%float
  ∧ sum [9007199254740992; -9007199254740992; 0.5]%float = NpScalar 0.5%float.
Proof. split; reflexivity. Qed.

Example float64_nan : scalar_eqb PrimFloat.nan PrimFloat.nan = false.
Proof. reflexivity. Qed.

(** On binary64 cells the value of a bundle depends on its order. *)
Example float64_bundle_order :
  fst (agent_value_for_bundle float_r 0 (Some [0; 1; 2]) float_heap) = Ok (NpScalar 0%float)
  ∧ fst (agent_value_for_bundle float_r 0 (Some [1; 2; 0]) float_heap) = Ok (NpScalar 0.5%float).
Proof. split; reflexivity. Qed.

Section generic.
Context {T : Type}.
Implicit Types (h : heap T) (a : np.ndarray T) (m : ValuationMatrix) (l self other : loc).

(** ** The monad, step by step *)

Lemma bind_run {A B : Type} (c : M T A) (k : A → M T B) (h : heap T) :
  (c ≫= k) h = match c h with
               | (Ok x, h') => k x h'
               | (Raise e, h') => (Raise e, h')
               end.
Proof. reflexivity. Qed.

Lemma load_matrix_run h l m : h !! l = Some (ObjMatrix m) → load_matrix l h = (Ok m, h).
Proof. intros E. unfold load_matrix. by rewrite E. Qed.

Lemma load_array_run h l a : h !! l = Some (ObjArray a) → load_array l h = (Ok a, h).
Proof. intros E. unfold load_array. by rewrite E. Qed.

Lemma fresh_unused (h : heap T) : h !! fresh (dom h) = None.
Proof. apply not_elem_of_dom, is_fresh. Qed.

Lemma alloc_extends (h : heap T) (o : object T) : extends h (<[fresh (dom h) := o]> h).
Proof.
  intros l o' E. rewrite lookup_insert_ne; [done|].
  intros <-. rewrite fresh_unused in E. discriminate.
Qed.

Lemma extends_refl h : extends h h.
Proof. by intros l o. Qed.

Lemma extends_trans h1 h2 h3 : extends h1 h2 → extends h2 h3 → extends h1 h3.
Proof. intros H12 H23 l o E. by apply H23, H12. Qed.

Lemma is_matrix_extends h h' self m a :
  extends h h' → is_matrix h self m a → is_matrix h' self m a.
Proof. intros X [? ? ? ? ? ?]. constructor; auto. Qed.

(** ** numpy: indexing *)

Lemma index_in_range (n : nat) (i : Z) :
  0 ≤ i < Z.of_nat n → np.index n i = Ok (Z.to_nat i).
Proof.
  intros [Hlo Hhi]. unfold np.index.
  destruct (Z.ltb_spec i (- Z.of_nat n)); [lia|].
  destruct (Z.leb_spec (Z.of_nat n) i); [lia|]. simpl.
  destruct (Z.ltb_spec i 0); [lia|]. reflexivity.
Qed.

Lemma index_from_end (n : nat) (i : Z) :
  - Z.of_nat n ≤ i < 0 → np.index n i = Ok (Z.to_nat (i + Z.of_nat n)).
Proof.
  intros [Hlo Hhi]. unfold np.index.
  destruct (Z.ltb_spec i (- Z.of_nat n)); [lia|].
  destruct (Z.leb_spec (Z.of_nat n) i); [lia|]. simpl.
  destruct (Z.ltb_spec i 0); [|lia]. reflexivity.
Qed.

Lemma index_out_of_range (n : nat) (i : Z) :
  i < - Z.of_nat n ∨ Z.of_nat n ≤ i → np.index n i = Raise IndexError.
Proof.
  intros H. unfold np.index.
  destruct (Z.ltb_spec i (- Z.of_nat n)); [reflexivity|].
  destruct (Z.leb_spec (Z.of_nat n) i); [reflexivity|]. lia.
Qed.

Lemma getitem_in_range {A : Type} (l : list A) (i : Z) (x : A) :
  0 ≤ i → l !! Z.to_nat i = Some x → np.getitem l i = Ok x.
Proof.
  intros Hlo E. unfold np.getitem.
  rewrite index_in_range; [simpl; by rewrite E|].
  apply lookup_lt_Some in E. lia.
Qed.

Lemma getitem_out_of_range {A : Type} (l : list A) (i : Z) :
  i < - Z.of_nat (length l) ∨ Z.of_nat (length l) ≤ i →
  np.getitem l i = Raise IndexError.
Proof. intros H. unfold np.getitem. by rewrite index_out_of_range. Qed.

(** Indexing raises nothing but [IndexError]. *)
Lemma getitem_cases {A : Type} (l : list A) (i : Z) :
  (∃ x, np.getitem l i = Ok x) ∨ np.getitem l i = Raise IndexError.
Proof.
  unfold np.getitem, np.index.
  destruct ((i <? - Z.of_nat (length l)) || (Z.of_nat (length l) <=? i)); simpl; [by right|].
  destruct (l !! _); [left; eauto | by right].
Qed.

Lemma getitem_first {A : Type} (l : list A) :
  np.getitem l 0 = match l with
                   | [] => Raise IndexError
                   | x :: _ => Ok x
                   end.
Proof.
  destruct l as [|x l]; [reflexivity|].
  by apply getitem_in_range.
Qed.

(** ** The constructor *)

(** Construction from a reference to an array. *)
Lemma init_array_run (h : heap T) (l : loc) (a : np.ndarray T) :
  h !! l = Some (ObjArray a) →
  ValuationMatrix_init (PyRef l) h =
    match np.rows a with
    | [] => (Raise IndexError, h)
    | r0 :: _ =>
        alloc (ObjMatrix (mkValuationMatrix l (Z.of_nat (length (np.rows a)))
                                             (Z.of_nat (length r0)))) h
    end.
Proof.
  intros E. unfold ValuationMatrix_init.
  rewrite bind_run, E, bind_run, (load_array_run _ _ _ E), bind_run.
  unfold lift. rewrite getitem_first. by destruct (np.rows a).
Qed.

(** Construction from another matrix: its backing array is shared. *)
Lemma init_matrix_run (h : heap T) (l : loc) (other : ValuationMatrix) (a : np.ndarray T) :
  h !! l = Some (ObjMatrix other) →
  h !! _v other = Some (ObjArray a) →
  ValuationMatrix_init (PyRef l) h =
    match np.rows a with
    | [] => (Raise IndexError, h)
    | r0 :: _ =>
        alloc (ObjMatrix (mkValuationMatrix (_v other) (Z.of_nat (length (np.rows a)))
                                             (Z.of_nat (length r0)))) h
    end.
Proof.
  intros E Ea. unfold ValuationMatrix_init.
  rewrite bind_run, E, bind_run, (load_array_run _ _ _ Ea), bind_run.
  unfold lift. rewrite getitem_first. by destruct (np.rows a).
Qed.

(** Construction from a list of lists: the array is built first. *)
Lemma init_list_run (h : heap T) (table : list (list T)) (a : np.ndarray T) :
  np.array table = Ok a →
  ValuationMatrix_init (PyList table) h =
    ValuationMatrix_init (PyRef (fresh (dom h))) (<[fresh (dom h) := ObjArray a]> h).
Proof.
  intros E. unfold ValuationMatrix_init.
  rewrite !bind_run. unfold lift. rewrite E. unfold alloc at 1. simpl.
  rewrite (bind_run (λ h0, _)). by rewrite lookup_insert_eq.
Qed.

Lemma first_row_length (a : np.ndarray T) (r0 : list T) (rs : list (list T)) :
  np.rectangular a → np.rows a = r0 :: rs → length r0 = np.ncols a.
Proof.
  unfold np.rectangular. intros R E. rewrite E in R.
  by apply Forall_cons in R as [? _].
Qed.

(** The constructor establishes [is_matrix] on every rectangular array with
    a first row, ... *)
Lemma init_array_is_matrix (h : heap T) (l : loc) (a : np.ndarray T) :
  h !! l = Some (ObjArray a) → np.rectangular a → np.rows a ≠ [] →
  ∃ self m,
    ValuationMatrix_init (PyRef l) h = (Ok self, <[self := ObjMatrix m]> h)
    ∧ h !! self = None
    ∧ _v m = l
    ∧ is_matrix (<[self := ObjMatrix m]> h) self m a.
Proof.
  intros E R N. rewrite (init_array_run _ _ _ E).
  destruct (np.rows a) as [|r0 rs] eqn:Ea; [done|].
  eexists _, _. split; [reflexivity|].
  split; [apply fresh_unused|]. split; [reflexivity|].
  constructor; simpl.
  - by rewrite lookup_insert_eq.
  - by apply alloc_extends.
  - done.
  - by rewrite Ea.
  - by rewrite Ea.
  - f_equal. eapply first_row_length; eauto.
Qed.

(** ... and every matrix of the store is what the constructor builds from
    its backing array. *)
Lemma is_matrix_init (h : heap T) (self : loc) (m : ValuationMatrix) (a : np.ndarray T) :
  is_matrix h self m a →
  ValuationMatrix_init (PyRef (_v m)) h = alloc (ObjMatrix m) h.
Proof.
  intros [Ho Ha R N Hag Hob]. rewrite (init_array_run _ _ _ Ha).
  destruct (np.rows a) as [|r0 rs] eqn:Ea; [done|].
  do 2 f_equal. destruct m as [v na no]; simpl in *. f_equal; [done|].
  rewrite Hob. f_equal. eapply first_row_length; eauto.
Qed.

(** ** List comprehensions that only read the store *)

Lemma comprehension_read_only {A B : Type} (f : A → M T B) (g : A → result B) (h : heap T) (l : list A) :
  (∀ x, f x h = (g x, h)) → comprehension f l h = (collect g l, h).
Proof.
  intros Hf. induction l as [|x l IH]; [reflexivity|].
  simpl. rewrite bind_run, Hf. destruct (g x) as [y|e]; simpl; [|reflexivity].
  rewrite bind_run, IH. by destruct (collect g l).
Qed.

Lemma collect_all_ok {A B : Type} (g : A → result B) (v : A → B) (l : list A) :
  Forall (λ x, g x = Ok (v x)) l → collect g l = Ok (map v l).
Proof.
  induction 1 as [|x l E _ IH]; [reflexivity|].
  simpl. by rewrite E, IH.
Qed.

Lemma collect_raises {A B : Type} (g : A → result B) (e : exn) (l : list A) :
  Forall (λ x, (∃ y, g x = Ok y) ∨ g x = Raise e) l →
  Exists (λ x, g x = Raise e) l →
  collect g l = Raise e.
Proof.
  induction 1 as [|x l Hx _ IH]; intros Hex; [by apply Exists_nil in Hex|].
  simpl. destruct Hx as [[y E]|E]; rewrite E; simpl; [|reflexivity].
  apply Exists_cons in Hex as [Hex|Hex]; [congruence|].
  by rewrite IH.
Qed.

(** ** Reading cells *)

(** [self._v[agent][object]] reads the store and leaves it as it is. *)
Lemma value_at_run (h : heap T) (self : loc) (m : ValuationMatrix) (a : np.ndarray T) (agent object : Z) :
  is_matrix h self m a →
  value_at self agent object h =
    (result_bind (np.getitem (np.rows a) agent) (λ row, np.getitem row object), h).
Proof.
  intros [Ho Ha _ _ _ _]. unfold value_at.
  rewrite bind_run, (load_matrix_run _ _ _ Ho), bind_run, (load_array_run _ _ _ Ha), bind_run.
  unfold lift. by destruct (np.getitem (np.rows a) agent).
Qed.

Lemma agent_row (h : heap T) (self : loc) (m : ValuationMatrix) (a : np.ndarray T) (agent : Z) :
  is_matrix h self m a → 0 ≤ agent < num_of_agents m →
  ∃ row, np.rows a !! Z.to_nat agent = Some row
         ∧ np.getitem (np.rows a) agent = Ok row
         ∧ Z.of_nat (length row) = num_of_objects m.
Proof.
  intros [_ _ R _ Hag Hob] [Hlo Hhi].
  destruct (lookup_lt_is_Some_2 (np.rows a) (Z.to_nat agent)) as [row E]; [lia|].
  exists row. split; [done|]. split; [by apply getitem_in_range|].
  rewrite Hob. f_equal. unfold np.rectangular in R.
  rewrite Forall_lookup in R. by apply (R _ _ E).
Qed.

(** ** numpy: deleting a row or a column *)

Lemma delete_row_run (a : np.ndarray T) (agent : Z) :
  0 ≤ agent < Z.of_nat (length (np.rows a)) →
  np.delete a agent 0 = Ok (np.NdArray (delete (Z.to_nat agent) (np.rows a)) (np.ncols a)).
Proof. intros H. unfold np.delete. by rewrite index_in_range. Qed.

Lemma delete_column_run (a : np.ndarray T) (object : Z) :
  0 ≤ object < Z.of_nat (np.ncols a) →
  np.delete a object 1 =
    Ok (np.NdArray (delete (Z.to_nat object) <$> np.rows a) (np.ncols a - 1)).
Proof. intros H. unfold np.delete. by rewrite index_in_range. Qed.

Lemma delete_row_rectangular (a : np.ndarray T) (k : nat) :
  np.rectangular a → np.rectangular (np.NdArray (delete k (np.rows a)) (np.ncols a)).
Proof.
  unfold np.rectangular. simpl. rewrite !Forall_lookup. intros R i r E.
  rewrite list_lookup_delete in E. eauto.
Qed.

Lemma delete_column_rectangular (a : np.ndarray T) (k : nat) :
  (k < np.ncols a)%nat → np.rectangular a →
  np.rectangular (np.NdArray (delete k <$> np.rows a) (np.ncols a - 1)).
Proof.
  unfold np.rectangular. simpl. rewrite !Forall_lookup. intros Hk R i r E.
  rewrite list_lookup_fmap in E.
  destruct (np.rows a !! i) as [r'|] eqn:E'; [|discriminate].
  simpl in E. injection E as <-.
  rewrite length_delete; [by rewrite (R _ _ E')|].
  apply lookup_lt_is_Some. rewrite (R _ _ E'). done.
Qed.

Lemma delete_column_cell (a : np.ndarray T) (k i j : nat) :
  cell (np.NdArray (delete k <$> np.rows a) (np.ncols a - 1)) i j =
    cell a i (if decide (j < k)%nat then j else S j).
Proof.
  unfold cell. simpl. rewrite list_lookup_fmap.
  destruct (np.rows a !! i) as [r|]; [|reflexivity].
  simpl. apply list_lookup_delete.
Qed.

Context `{!Dtype T}.

(** ** numpy: equality of arrays *)

Lemma row_equal_Forall2 (r1 r2 : list T) :
  length r1 = length r2 →
  np.row_equal r1 r2 = true ↔ Forall2 (λ x y, scalar_eqb x y = true) r1 r2.
Proof.
  unfold np.row_equal. revert r2.
  induction r1 as [|x r1 IH]; intros [|y r2] L; simpl in *; try discriminate.
  - split; [constructor|done].
  - rewrite andb_true_iff, Forall2_cons, IH by lia. done.
Qed.

Lemma rows_equal_Forall2 (n : nat) (rs1 rs2 : list (list T)) :
  length rs1 = length rs2 →
  Forall (λ r, length r = n) rs1 → Forall (λ r, length r = n) rs2 →
  forallb (λ p, np.row_equal (fst p) (snd p)) (zip rs1 rs2) = true
  ↔ Forall2 (Forall2 (λ x y, scalar_eqb x y = true)) rs1 rs2.
Proof.
  revert rs2.
  induction rs1 as [|r1 rs1 IH]; intros [|r2 rs2] L R1 R2; simpl in *; try discriminate.
  - split; [constructor|done].
  - apply Forall_cons in R1 as [L1 R1]. apply Forall_cons in R2 as [L2 R2].
    rewrite andb_true_iff, Forall2_cons, row_equal_Forall2, IH by (auto; lia). done.
Qed.

(** On rectangular arrays, [np.array_equal] answers true exactly when the
    shapes are the same and the cells are equal under [==], row by row. *)
Lemma array_equal_Forall2 a1 a2 :
  np.rectangular a1 → np.rectangular a2 →
  np.array_equal a1 a2 = true
  ↔ np.shape a1 = np.shape a2
    ∧ Forall2 (Forall2 (λ x y, scalar_eqb x y = true)) (np.rows a1) (np.rows a2).
Proof.
  intros R1 R2. unfold np.array_equal. case_decide as S.
  - pose proof S as S'. unfold np.shape in S'. injection S' as L C.
    unfold np.rectangular in *. rewrite <- C in R2.
    rewrite (rows_equal_Forall2 _ _ _ L R1 R2). split; [by intros ?|by intros [_ ?]].
  - split; [discriminate|]. by intros [? _].
Qed.

(** The same, position by position. *)
Lemma array_equal_cells a1 a2 :
  np.rectangular a1 → np.rectangular a2 →
  np.array_equal a1 a2 = true
  ↔ np.shape a1 = np.shape a2
    ∧ ∀ i j : nat, (i < length (np.rows a1))%nat → (j < np.ncols a1)%nat →
                   cell_eqb a1 a2 i j = true.
Proof.
  intros R1 R2. rewrite (array_equal_Forall2 _ _ R1 R2).
  unfold np.rectangular in R1, R2. rewrite Forall_lookup in R1. rewrite Forall_lookup in R2.
  split; intros [S H]; (split; [done|]); unfold np.shape in S; injection S as L C.
  - intros i j Hi Hj. unfold cell_eqb, cell.
    destruct (lookup_lt_is_Some_2 (np.rows a1) i Hi) as [r1 E1].
    destruct (lookup_lt_is_Some_2 (np.rows a2) i) as [r2 E2]; [lia|].
    pose proof (Forall2_lookup_lr _ _ _ _ _ _ H E1 E2) as Hr.
    rewrite E1, E2. simpl.
    destruct (lookup_lt_is_Some_2 r1 j) as [x Ex]; [rewrite (R1 _ _ E1); lia|].
    destruct (lookup_lt_is_Some_2 r2 j) as [y Ey]; [rewrite (R2 _ _ E2); lia|].
    rewrite Ex, Ey. apply (Forall2_lookup_lr _ _ _ _ _ _ Hr Ex Ey).
  - apply Forall2_same_length_lookup. split; [done|]. intros i r1 r2 E1 E2.
    apply Forall2_same_length_lookup. split; [rewrite (R1 _ _ E1), (R2 _ _ E2); lia|].
    intros j x y Ex Ey.
    assert (i < length (np.rows a1))%nat as Hi by (by eapply lookup_lt_Some).
    assert (j < np.ncols a1)%nat as Hj.
    { rewrite <- (R1 _ _ E1). by eapply lookup_lt_Some. }
    specialize (H i j Hi Hj). unfold cell_eqb, cell in H.
    rewrite E1, E2 in H. simpl in H. by rewrite Ex, Ey in H.
Qed.

Lemma row_equal_refl (r : list T) :
  Forall (λ x, scalar_eqb x x = true) r → np.row_equal r r = true.
Proof.
  unfold np.row_equal. induction 1 as [|x r E _ IH]; [done|].
  simpl. by rewrite E, IH.
Qed.

(** [np.array_equal] of an array with itself, when it holds no NaN. *)
Lemma array_equal_refl a : no_nan (np.rows a) → np.array_equal a a = true.
Proof.
  intros N. unfold np.array_equal. rewrite decide_True by done.
  induction N as [|r rs Hr _ IH]; [done|].
  simpl. by rewrite (row_equal_refl _ Hr), IH.
Qed.

Lemma row_equal_sym (r1 r2 : list T) :
  (∀ x y : T, scalar_eqb x y = scalar_eqb y x) → np.row_equal r1 r2 = np.row_equal r2 r1.
Proof.
  intros Hs. unfold np.row_equal. revert r2.
  induction r1 as [|x r1 IH]; intros [|y r2]; simpl; try done.
  by rewrite (Hs x y), IH.
Qed.

Lemma array_equal_sym a1 a2 :
  (∀ x y : T, scalar_eqb x y = scalar_eqb y x) →
  np.array_equal a1 a2 = np.array_equal a2 a1.
Proof.
  intros Hs. unfold np.array_equal.
  destruct (decide (np.shape a1 = np.shape a2)) as [S|S].
  - rewrite decide_True by done. clear S.
    generalize (np.rows a2). induction (np.rows a1) as [|r1 rs1 IH]; intros [|r2 rs2];
      simpl; try done.
    by rewrite (row_equal_sym _ _ Hs), IH.
  - by rewrite decide_False by done.
Qed.

Lemma no_nan_delete_row (rows : list (list T)) (k : nat) :
  no_nan rows → no_nan (delete k rows).
Proof. apply Forall_delete. Qed.

Lemma no_nan_delete_column (rows : list (list T)) (k : nat) :
  no_nan rows → no_nan (delete k <$> rows).
Proof.
  unfold no_nan. intros N. apply Forall_fmap.
  eapply Forall_impl; [exact N|]. intros r Hr. simpl. by apply Forall_delete.
Qed.

(** ** [agent_value_for_bundle] *)

Lemma bundle_run (h : heap T) (self : loc) (m : ValuationMatrix) (a : np.ndarray T)
    (agent : Z) (row : list T) (bundle : list Z) :
  is_matrix h self m a → np.getitem (np.rows a) agent = Ok row →
  agent_value_for_bundle self agent (Some bundle) h =
    (result_bind (collect (np.getitem row) bundle) (λ vals, Ok (sum vals)), h).
Proof.
  intros Hm Er. unfold agent_value_for_bundle. rewrite bind_run.
  rewrite (comprehension_read_only _ (np.getitem row)).
  - by destruct (collect _ bundle).
  - intros o. by rewrite (value_at_run _ _ _ _ _ _ Hm), Er.
Qed.

(** C2. [agent_value_for_bundle] returns 0 for the bundle [None] and for
    the empty bundle, whatever the matrix and the agent; the two calls
    have the same outcome. *)
Theorem agent_value_for_bundle_empty (h : heap T) (self : loc) (agent : Z) :
  agent_value_for_bundle self agent None h = (Ok (PyInt 0), h)
  ∧ agent_value_for_bundle self agent (Some []) h = (Ok (PyInt 0), h)
  ∧ agent_value_for_bundle self agent (Some []) h = agent_value_for_bundle self agent None h.
Proof. split_and!; reflexivity. Qed.

(** C8, amended.  For every matrix, every agent index in
    [0, num_of_agents) and every bundle with some object index outside
    [-num_of_objects, num_of_objects), [agent_value_for_bundle] raises
    [IndexError] and returns no value. *)
Theorem bundle_index_out_of_range (h : heap T) (self : loc) (m : ValuationMatrix)
    (a : np.ndarray T) (agent : Z) (bundle : list Z) :
  is_matrix h self m a →
  0 ≤ agent < num_of_agents m →
  Exists (λ o, o < - num_of_objects m ∨ num_of_objects m ≤ o) bundle →
  agent_value_for_bundle self agent (Some bundle) h = (Raise IndexError, h).
Proof.
  intros Hm Ha Hb.
  destruct (agent_row _ _ _ _ _ Hm Ha) as (row & Er & Eg & Lr).
  rewrite (bundle_run _ _ _ _ _ _ _ Hm Eg).
  rewrite (collect_raises _ IndexError); [reflexivity| |].
  - apply Forall_forall. intros o _. apply getitem_cases.
  - eapply Exists_impl; [exact Hb|]. intros o Ho. simpl in Ho.
    apply getitem_out_of_range. by rewrite Lr.
Qed.

(** An index in [-num_of_objects, 0) counts from the end of the row. *)
Lemma bundle_index_from_end (h : heap T) (self : loc) (m : ValuationMatrix)
    (a : np.ndarray T) (agent o : Z) :
  is_matrix h self m a →
  0 ≤ agent < num_of_agents m →
  - num_of_objects m ≤ o < 0 →
  agent_value_for_bundle self agent (Some [o]) h =
    agent_value_for_bundle self agent (Some [o + num_of_objects m]) h.
Proof.
  intros Hm Ha Ho.
  destruct (agent_row _ _ _ _ _ Hm Ha) as (row & Er & Eg & Lr).
  rewrite !(bundle_run _ _ _ _ _ _ _ Hm Eg). simpl.
  unfold np.getitem. rewrite index_from_end, index_in_range by lia.
  by rewrite Lr.
Qed.

(** ** [without_agent] and [without_object] *)

Lemma without_agent_run (h : heap T) (self : loc) (m : ValuationMatrix) (a : np.ndarray T) (agent : Z) :
  is_matrix h self m a →
  without_agent self agent h =
    match np.delete a agent 0 with
    | Ok a' => ValuationMatrix_init (PyRef (fresh (dom h))) (<[fresh (dom h) := ObjArray a']> h)
    | Raise e => (Raise e, h)
    end.
Proof.
  intros [Ho Ha _ _ _ _]. unfold without_agent.
  rewrite bind_run, (load_matrix_run _ _ _ Ho), bind_run, (load_array_run _ _ _ Ha), bind_run.
  unfold lift. by destruct (np.delete a agent 0).
Qed.

Lemma without_object_run (h : heap T) (self : loc) (m : ValuationMatrix) (a : np.ndarray T) (object : Z) :
  is_matrix h self m a →
  without_object self object h =
    match np.delete a object 1 with
    | Ok a' => ValuationMatrix_init (PyRef (fresh (dom h))) (<[fresh (dom h) := ObjArray a']> h)
    | Raise e => (Raise e, h)
    end.
Proof.
  intros [Ho Ha _ _ _ _]. unfold without_object.
  rewrite bind_run, (load_matrix_run _ _ _ Ho), bind_run, (load_array_run _ _ _ Ha), bind_run.
  unfold lift. by destruct (np.delete a object 1).
Qed.

(** Construction on a newly allocated rectangular array with a first row:
    the array and the matrix are new objects of the store. *)
Lemma init_new_array (h : heap T) (a' : np.ndarray T) :
  np.rectangular a' → np.rows a' ≠ [] →
  ∃ self' m' h',
    ValuationMatrix_init (PyRef (fresh (dom h))) (<[fresh (dom h) := ObjArray a']> h) = (Ok self', h')
    ∧ h !! self' = None
    ∧ h !! _v m' = None
    ∧ extends h h'
    ∧ is_matrix h' self' m' a'.
Proof.
  intros R N.
  destruct (init_array_is_matrix (<[fresh (dom h) := ObjArray a']> h) (fresh (dom h)) a')
    as (self' & m' & Run & New & Ev & Hm); [apply lookup_insert_eq|done|done|].
  exists self', m', (<[self' := ObjMatrix m']> (<[fresh (dom h) := ObjArray a']> h)).
  split; [done|]. split; [|split; [|split; [|done]]].
  - destruct (h !! self') as [o|] eqn:E; [|done].
    apply (alloc_extends h (ObjArray a')) in E. congruence.
  - rewrite Ev. apply fresh_unused.
  - intros l o E. rewrite lookup_insert_ne.
    + by apply alloc_extends.
    + intros <-. apply (alloc_extends h (ObjArray a')) in E. congruence.
Qed.

(** With at least two agents, [without_agent] on an agent index in
    [0, num_of_agents) returns a new matrix on a new backing array, which
    is the original without the row of the agent: row [i] of the result is
    row [i] of the original before the agent and row [i+1] from the agent
    on; there is one agent less and as many objects. *)
Lemma without_agent_removes_row (h : heap T) (self : loc) (m : ValuationMatrix)
    (a : np.ndarray T) (agent : Z) :
  is_matrix h self m a →
  2 ≤ num_of_agents m →
  0 ≤ agent < num_of_agents m →
  ∃ self' m' a' h',
    without_agent self agent h = (Ok self', h')
    ∧ h !! self' = None
    ∧ h !! _v m' = None
    ∧ is_matrix h' self' m' a'
    ∧ (∀ i : nat, Z.of_nat i < agent → np.rows a' !! i = np.rows a !! i)
    ∧ (∀ i : nat, agent ≤ Z.of_nat i → np.rows a' !! i = np.rows a !! S i)
    ∧ num_of_agents m' = num_of_agents m - 1
    ∧ num_of_objects m' = num_of_objects m.
Proof.
  intros Hm H2 Ha.
  pose proof (im_agents _ _ _ _ Hm) as Hag.
  pose proof (im_objects _ _ _ _ Hm) as Hob.
  rewrite (without_agent_run _ _ _ _ _ Hm), delete_row_run by lia.
  set (a' := np.NdArray (delete (Z.to_nat agent) (np.rows a)) (np.ncols a)).
  assert (length (np.rows a') = (length (np.rows a) - 1)%nat) as L.
  { apply length_delete, lookup_lt_is_Some. lia. }
  destruct (init_new_array h a') as (self' & m' & h' & Run & N1 & N2 & _ & Hm').
  { apply delete_row_rectangular, Hm. }
  { intros E. rewrite E in L. simpl in L. lia. }
  exists self', m', a', h'. split_and!; try done.
  - intros i Hi. apply list_lookup_delete_lt. lia.
  - intros i Hi. apply list_lookup_delete_ge. lia.
  - rewrite (im_agents _ _ _ _ Hm'), L. lia.
  - by rewrite (im_objects _ _ _ _ Hm').
Qed.

(** What [without_object] returns on a valid object index. *)
Lemma without_object_result (h : heap T) (self : loc) (m : ValuationMatrix)
    (a : np.ndarray T) (object : Z) :
  is_matrix h self m a →
  0 ≤ object < num_of_objects m →
  ∃ self' m' a' h',
    without_object self object h = (Ok self', h')
    ∧ h !! self' = None
    ∧ h !! _v m' = None
    ∧ is_matrix h' self' m' a'
    ∧ (∀ i j : nat, Z.of_nat j < object → cell a' i j = cell a i j)
    ∧ (∀ i j : nat, object ≤ Z.of_nat j → cell a' i j = cell a i (S j))
    ∧ num_of_objects m' = num_of_objects m - 1
    ∧ num_of_agents m' = num_of_agents m.
Proof.
  intros Hm Ho.
  pose proof (im_agents _ _ _ _ Hm) as Hag.
  pose proof (im_objects _ _ _ _ Hm) as Hob.
  rewrite (without_object_run _ _ _ _ _ Hm), delete_column_run by lia.
  set (k := Z.to_nat object).
  set (a' := np.NdArray (delete k <$> np.rows a) (np.ncols a - 1)).
  destruct (init_new_array h a') as (self' & m' & h' & Run & N1 & N2 & _ & Hm').
  { apply delete_column_rectangular; [lia|apply Hm]. }
  { simpl. intros E. apply fmap_nil_inv in E. by apply (im_first_row _ _ _ _ Hm). }
  exists self', m', a', h'. split_and!; try done.
  - intros i j Hj. unfold a'. rewrite delete_column_cell. case_decide; [done|lia].
  - intros i j Hj. unfold a'. rewrite delete_column_cell. case_decide; [lia|done].
  - rewrite (im_objects _ _ _ _ Hm'). simpl. lia.
  - rewrite (im_agents _ _ _ _ Hm'). simpl. by rewrite length_fmap.
Qed.

(** C4. For every matrix and every object index in [0, num_of_objects),
    [without_object] returns a new matrix on a new backing array, which is
    the original without the column of the object: cell [(i, j)] of the
    result is cell [(i, j)] of the original before the object and cell
    [(i, j+1)] from the object on; there is one object less and as many
    agents. *)
Theorem without_object_removes_column (h : heap T) (self : loc) (m : ValuationMatrix)
    (a : np.ndarray T) (object : Z) :
  is_matrix h self m a →
  0 ≤ object < num_of_objects m →
  ∃ self' m' a' h',
    without_object self object h = (Ok self', h')
    ∧ h !! self' = None
    ∧ h !! _v m' = None
    ∧ is_matrix h' self' m' a'
    ∧ (∀ i j : nat, Z.of_nat j < object → cell a' i j = cell a i j)
    ∧ (∀ i j : nat, object ≤ Z.of_nat j → cell a' i j = cell a i (S j))
    ∧ num_of_objects m' = num_of_objects m - 1
    ∧ num_of_agents m' = num_of_agents m.
Proof. apply without_object_result. Qed.

(** C10. For every matrix with exactly one object (and so at least one
    agent), [without_object(0)] raises nothing: it returns a new matrix
    with as many agents and no object. *)
Theorem without_only_object (h : heap T) (self : loc) (m : ValuationMatrix) (a : np.ndarray T) :
  is_matrix h self m a →
  num_of_objects m = 1 →
  1 ≤ num_of_agents m
  ∧ ∃ self' m' a' h',
      without_object self 0 h = (Ok self', h')
      ∧ h !! self' = None
      ∧ is_matrix h' self' m' a'
      ∧ num_of_agents m' = num_of_agents m
      ∧ num_of_objects m' = 0.
Proof.
  intros Hm H1. split.
  - rewrite (im_agents _ _ _ _ Hm).
    pose proof (im_first_row _ _ _ _ Hm). destruct (np.rows a); [done|simpl; lia].
  - destruct (without_object_result h self m a 0 Hm)
      as (self' & m' & a' & h' & Run & N & _ & Hm' & _ & _ & Hob & Hag); [lia|].
    exists self', m', a', h'. split_and!; try done. lia.
Qed.

(** On a matrix with exactly one agent, [without_agent(0)] returns no
    matrix: [np.delete] builds an array without rows, which keeps the
    column count of the original, and the constructor raises [IndexError]
    when it reads the first row of that array.  The store gains this array
    and nothing else. *)
Lemma without_only_agent (h : heap T) (self : loc) (m : ValuationMatrix) (a : np.ndarray T) :
  is_matrix h self m a →
  num_of_agents m = 1 →
  without_agent self 0 h =
    (Raise IndexError, <[fresh (dom h) := ObjArray (np.NdArray [] (np.ncols a))]> h)
  ∧ Z.of_nat (np.ncols a) = num_of_objects m.
Proof.
  intros Hm H1. pose proof (im_agents _ _ _ _ Hm) as Hag.
  split; [|by rewrite (im_objects _ _ _ _ Hm)].
  rewrite (without_agent_run _ _ _ _ _ Hm), delete_row_run by lia.
  rewrite (init_array_run _ _ _ (lookup_insert_eq _ _ _)). simpl.
  destruct (np.rows a) as [|r0 [|r1 rs]]; simpl in *; [lia|reflexivity|lia].
Qed.

(** ** The store only grows *)

Lemma grows_ret {A : Type} (x : A) : grows (T:=T) (mret x).
Proof. intros h. apply extends_refl. Qed.









(** ** [equals] *)

Lemma equals_run (h : heap T) (self other : loc) (m m' : ValuationMatrix) (a a' : np.ndarray T) :
  is_matrix h self m a → is_matrix h other m' a' →
  equals self other h = (Ok (np.array_equal a a'), h).
Proof.
  intros [Ho Ha _ _ _ _] [Ho' Ha' _ _ _ _]. unfold equals.
  rewrite bind_run, (load_matrix_run _ _ _ Ho), bind_run, (load_array_run _ _ _ Ha).
  by rewrite bind_run, (load_matrix_run _ _ _ Ho'), bind_run, (load_array_run _ _ _ Ha').
Qed.


Lemma no_nan_cells a :
  np.rectangular a →
  no_nan (np.rows a)
  ↔ ∀ i j : nat, (i < length (np.rows a))%nat → (j < np.ncols a)%nat → cell_eqb a a i j = true.
Proof.
  intros R. unfold np.rectangular in R. rewrite Forall_lookup in R.
  unfold no_nan, cell_eqb, cell. split.
  - intros N i j Hi Hj. rewrite Forall_lookup in N.
    destruct (lookup_lt_is_Some_2 (np.rows a) i Hi) as [r E]. rewrite E. simpl.
    destruct (lookup_lt_is_Some_2 r j) as [x Ex]; [rewrite (R _ _ E); lia|].
    rewrite Ex. specialize (N _ _ E). rewrite Forall_lookup in N. by apply (N _ _ Ex).
  - intros Hc. apply Forall_lookup. intros i r E. apply Forall_lookup. intros j x Ex.
    assert (i < length (np.rows a))%nat as Hi by (by eapply lookup_lt_Some).
    assert (j < np.ncols a)%nat as Hj by (rewrite <- (R _ _ E); by eapply lookup_lt_Some).
    specialize (Hc i j Hi Hj). rewrite E in Hc. simpl in Hc. by rewrite Ex in Hc.
Qed.

(** C6, amended.  For every pair of matrices, [equals] returns true if and
    only if they have the same numbers of agents and of objects and, at
    every position, cells that compare equal under [==], compared exactly.
    [equals] is symmetric, as [==] is; a matrix [equals] itself exactly
    when none of its cells is a NaN, that is when every cell compares
    equal to itself. *)
Theorem equals_same_shape_and_cells (h : heap T) (self other : loc)
    (m m' : ValuationMatrix) (a a' : np.ndarray T) :
  is_matrix h self m a →
  is_matrix h other m' a' →
  ∃ b : bool,
    equals self other h = (Ok b, h)
    ∧ (b = true ↔
         num_of_agents m = num_of_agents m'
         ∧ num_of_objects m = num_of_objects m'
         ∧ ∀ i j : nat, Z.of_nat i < num_of_agents m → Z.of_nat j < num_of_objects m →
                        cell_eqb a a' i j = true)
    ∧ ((∀ x y : T, scalar_eqb x y = scalar_eqb y x) → equals other self h = (Ok b, h))
    ∧ (equals self self h = (Ok true, h) ↔ no_nan (np.rows a)).
Proof.
  intros Hm Hm'.
  pose proof (im_rectangular _ _ _ _ Hm) as R.
  pose proof (im_rectangular _ _ _ _ Hm') as R'.
  exists (np.array_equal a a'). split_and!.
  - apply (equals_run _ _ _ _ _ _ _ Hm Hm').
  - rewrite (array_equal_cells _ _ R R').
    rewrite (im_agents _ _ _ _ Hm), (im_agents _ _ _ _ Hm').
    rewrite (im_objects _ _ _ _ Hm), (im_objects _ _ _ _ Hm').
    unfold np.shape. split.
    + intros [S Hc]. injection S as L C. split_and!; [by rewrite L|by rewrite C|].
      intros i j Hi Hj. apply Hc; lia.
    + intros (L & C & Hc). split; [f_equal; lia|].
      intros i j Hi Hj. apply Hc; lia.
  - intros Hs. rewrite (equals_run _ _ _ _ _ _ _ Hm' Hm). by rewrite (array_equal_sym _ _ Hs).
  - rewrite (equals_run _ _ _ _ _ _ _ Hm Hm), (no_nan_cells _ R). split.
    + intros E. apply (array_equal_cells _ _ R R). by injection E.
    + intros N. do 2 f_equal. apply (array_equal_cells _ _ R R). by split.
Qed.

(** ** The three ways of construction *)

Lemma array_of_table (table : list (list T)) (n : nat) :
  table ≠ [] → Forall (λ r, length r = n) table →
  np.array table = Ok (np.NdArray table n).
Proof.
  intros N R. destruct table as [|r rs]; [done|]. unfold np.array.
  pose proof R as R0. apply Forall_cons in R0 as [L _].
  replace (forallb _ (r :: rs)) with true; [by rewrite L|].
  symmetry. apply forallb_forall. intros r' Hin.
  rewrite Forall_forall in R. apply Nat.eqb_eq.
  rewrite L. apply R. by apply list_elem_of_In.
Qed.

Lemma insert_extends (h : heap T) (l : loc) (o : object T) :
  h !! l = None → extends h (<[l := o]> h).
Proof. intros N l' o' E. rewrite lookup_insert_ne; [done|]. intros <-. congruence. Qed.

(** A rectangular array is determined by its rows when it has one. *)
Lemma array_of_rows (a : np.ndarray T) (table : list (list T)) (n : nat) :
  np.rectangular a → np.rows a = table → table ≠ [] →
  Forall (λ r, length r = n) table → a = np.NdArray table n.
Proof.
  intros R E N Tn. destruct a as [rs c]. simpl in E. subst rs. f_equal.
  destruct table as [|r0 rs]; [done|].
  apply Forall_cons in Tn as [<- _]. symmetry.
  by apply (first_row_length _ _ _ R eq_refl).
Qed.

(** Construction from another matrix gives a matrix on the same array. *)
Lemma init_matrix_is_matrix (h : heap T) (other : loc) (mo : ValuationMatrix) (a : np.ndarray T) :
  is_matrix h other mo a →
  ∃ self m,
    ValuationMatrix_init (PyRef other) h = (Ok self, <[self := ObjMatrix m]> h)
    ∧ h !! self = None
    ∧ _v m = _v mo
    ∧ is_matrix (<[self := ObjMatrix m]> h) self m a.
Proof.
  intros [Ho Ha R N Hag Hob]. rewrite (init_matrix_run _ _ _ _ Ho Ha).
  destruct (np.rows a) as [|r0 rs] eqn:Ea; [done|].
  eexists _, _. split; [reflexivity|].
  split; [apply fresh_unused|]. split; [reflexivity|].
  constructor; simpl.
  - by rewrite lookup_insert_eq.
  - by apply alloc_extends.
  - done.
  - by rewrite Ea.
  - by rewrite Ea.
  - f_equal. eapply first_row_length; eauto.
Qed.

(** C7, amended.  For every rectangular table with at least one row and
    without NaN, the matrix
    constructed from the table as a list of lists, the matrix constructed
    from a dense array that holds the table, and the matrix constructed
    from another matrix that holds the table are pairwise [equals], and
    have the same numbers of agents and of objects. *)
Theorem constructions_agree (h : heap T) (table : list (list T)) (n : nat)
    (dense other : loc) (ad ao : np.ndarray T) (mo : ValuationMatrix) :
  table ≠ [] →
  Forall (λ r, length r = n) table →
  no_nan table →
  h !! dense = Some (ObjArray ad) → np.rectangular ad → np.rows ad = table →
  is_matrix h other mo ao → np.rows ao = table →
  ∃ (m1 m2 m3 : loc) h',
    (m1 ← ValuationMatrix_init (PyList table);
     m2 ← ValuationMatrix_init (PyRef dense);
     m3 ← ValuationMatrix_init (PyRef other);
     mret (m1, m2, m3)) h = (Ok (m1, m2, m3), h')
    ∧ (∀ x y, x ∈ [m1; m2; m3] → y ∈ [m1; m2; m3] → equals x y h' = (Ok true, h'))
    ∧ (∀ x, x ∈ [m1; m2; m3] →
         ∃ mx, h' !! x = Some (ObjMatrix mx)
               ∧ num_of_agents mx = Z.of_nat (length table)
               ∧ num_of_objects mx = Z.of_nat n).
Proof.
  intros N Tn NaN Hd Rd Ed Ho Eo.
  set (a := np.NdArray table n).
  assert (np.rectangular a) as R by exact Tn.
  apply (array_of_rows _ _ n) in Ed; [|done..]. subst ad.
  apply (array_of_rows _ _ n) in Eo; [|apply Ho|done..]. subst ao. fold a in Hd, Ho.
  (* from the list of lists *)
  destruct (init_new_array h a R N) as (m1 & o1 & h1 & Run1 & _ & _ & X1 & H1).
  rewrite <- (init_list_run h table a) in Run1 by (by apply array_of_table).
  (* from the dense array *)
  destruct (init_array_is_matrix h1 dense a (X1 _ _ Hd) R N) as (m2 & o2 & Run2 & N2 & _ & H2).
  pose proof (insert_extends h1 m2 (ObjMatrix o2) N2) as X2.
  set (h2 := <[m2 := ObjMatrix o2]> h1) in *.
  (* from the other matrix *)
  assert (is_matrix h2 other mo a) as Ho2.
  { eapply is_matrix_extends; [|exact Ho]. by eapply extends_trans. }
  destruct (init_matrix_is_matrix h2 other mo a Ho2) as (m3 & o3 & Run3 & N3 & _ & H3).
  pose proof (insert_extends h2 m3 (ObjMatrix o3) N3) as X3.
  set (h3 := <[m3 := ObjMatrix o3]> h2) in *.
  assert (∀ x, x ∈ [m1; m2; m3] → ∃ mx, is_matrix h3 x mx a) as All.
  { intros x Hx. rewrite !elem_of_cons, elem_of_nil in Hx.
    destruct Hx as [-> | [-> | [-> | []]]].
    - exists o1. eapply is_matrix_extends; [|exact H1]. by eapply extends_trans.
    - exists o2. by eapply is_matrix_extends.
    - by exists o3. }
  exists m1, m2, m3, h3. split_and!.
  - rewrite bind_run, Run1, bind_run, Run2, bind_run, Run3. reflexivity.
  - intros x y Hx Hy.
    destruct (All x Hx) as [mx Hmx]. destruct (All y Hy) as [my Hmy].
    rewrite (equals_run _ _ _ _ _ _ _ Hmx Hmy). by rewrite (array_equal_refl a NaN).
  - intros x Hx. destruct (All x Hx) as [mx Hmx]. exists mx.
    split_and!; [apply Hmx|apply (im_agents _ _ _ _ Hmx)|apply (im_objects _ _ _ _ Hmx)].
Qed.

(** * Further properties of the class *)

(** ** Computations that only read *)

Lemma read_only_ret {A : Type} (x : A) : read_only (T:=T) (mret x).
Proof. by intros h. Qed.

Lemma read_only_lift {A : Type} (r : result A) : read_only (T:=T) (lift r).
Proof. by intros h. Qed.

Lemma read_only_load_array (l : loc) : read_only (T:=T) (load_array l).
Proof. intros h. unfold load_array. by destruct (h !! l) as [[|]|]. Qed.

Lemma read_only_load_matrix (l : loc) : read_only (T:=T) (load_matrix l).
Proof. intros h. unfold load_matrix. by destruct (h !! l) as [[|]|]. Qed.

Lemma read_only_bind {A B : Type} (c : M T A) (k : A → M T B) :
  read_only c → (∀ x, read_only (T:=T) (k x)) → read_only (T:=T) (c ≫= k).
Proof.
  intros Hc Hk h. rewrite bind_run. specialize (Hc h).
  destruct (c h) as [[x|e] h1]; simpl in *; subst h1; [apply Hk|done].
Qed.

Lemma read_only_comprehension {A B : Type} (f : A → M T B) (l : list A) :
  (∀ x, read_only (T:=T) (f x)) → read_only (T:=T) (comprehension f l).
Proof.
  intros Hf. induction l as [|x l IH]; simpl; [apply read_only_ret|].
  apply read_only_bind; [apply Hf|]. intros y.
  apply read_only_bind; [apply IH|]. intros ys. apply read_only_ret.
Qed.

Lemma read_only_value_at (self : loc) (agent object : Z) :
  read_only (T:=T) (value_at self agent object).
Proof.
  unfold value_at.
  apply read_only_bind; [apply read_only_load_matrix|]. intros m.
  apply read_only_bind; [apply read_only_load_array|]. intros a.
  apply read_only_bind; [apply read_only_lift|]. intros row. apply read_only_lift.
Qed.

(** X1. The accessors never change the store, whatever their arguments and
    whether they return or raise: [agents], [objects], [__getitem__],
    [agent_value_for_bundle] and [equals] hand back the store they were
    given. *)
Theorem accessors_read_only (self other : loc) (agent : Z) (bundle : option (list Z)) (k : key) :
  read_only (T:=T) (agents self)
  ∧ read_only (T:=T) (objects self)
  ∧ read_only (T:=T) (ValuationMatrix_getitem self k)
  ∧ read_only (T:=T) (agent_value_for_bundle self agent bundle)
  ∧ read_only (T:=T) (equals self other).
Proof.
  split_and!.
  - apply read_only_bind; [apply read_only_load_matrix|]. intros. apply read_only_ret.
  - apply read_only_bind; [apply read_only_load_matrix|]. intros. apply read_only_ret.
  - destruct k as [ks|i]; simpl.
    + apply read_only_bind; [apply read_only_load_matrix|]. intros m.
      apply read_only_bind; [apply read_only_load_array|]. intros a.
      apply read_only_bind; [apply read_only_lift|]. intros k0.
      apply read_only_bind; [apply read_only_lift|]. intros row.
      apply read_only_bind; [apply read_only_lift|]. intros k1.
      apply read_only_bind; [apply read_only_lift|]. intros x. apply read_only_ret.
    + apply read_only_bind; [apply read_only_load_matrix|]. intros m.
      apply read_only_bind; [apply read_only_load_array|]. intros a.
      apply read_only_bind; [apply read_only_lift|]. intros row. apply read_only_ret.
  - destruct bundle as [b|]; simpl; [|apply read_only_ret].
    apply read_only_bind; [|intros; apply read_only_ret].
    apply read_only_comprehension. intros o. apply read_only_value_at.
  - apply read_only_bind; [apply read_only_load_matrix|]. intros m.
    apply read_only_bind; [apply read_only_load_array|]. intros a.
    apply read_only_bind; [apply read_only_load_matrix|]. intros m'.
    apply read_only_bind; [apply read_only_load_array|]. intros a'. apply read_only_ret.
Qed.

(** ** [__getitem__] *)

Lemma getitem_int_run (h : heap T) (self : loc) (m : ValuationMatrix) (a : np.ndarray T) (i : Z) :
  is_matrix h self m a →
  ValuationMatrix_getitem self (KeyInt i) h =
    (result_bind (np.getitem (np.rows a) i) (λ row, Ok (ItemRow row)), h).
Proof.
  intros [Ho Ha _ _ _ _]. unfold ValuationMatrix_getitem.
  rewrite bind_run, (load_matrix_run _ _ _ Ho), bind_run, (load_array_run _ _ _ Ha), bind_run.
  unfold lift. by destruct (np.getitem (np.rows a) i).
Qed.

Lemma getitem_pair_run (h : heap T) (self : loc) (m : ValuationMatrix) (a : np.ndarray T)
    (i j : Z) (rest : list Z) :
  is_matrix h self m a →
  ValuationMatrix_getitem self (KeyTuple (i :: j :: rest)) h =
    (result_bind (array_value a i j) (λ x, Ok (ItemValue x)), h).
Proof.
  intros [Ho Ha _ _ _ _]. unfold ValuationMatrix_getitem, array_value.
  rewrite bind_run, (load_matrix_run _ _ _ Ho), bind_run, (load_array_run _ _ _ Ha).
  unfold lift, mbind, M_bind, mret, M_ret, tuple_getitem. simpl.
  destruct (np.getitem (np.rows a) i) as [row|e]; simpl; [|done].
  by destruct (np.getitem row j).
Qed.

Lemma rows_length (h : heap T) (self : loc) (m : ValuationMatrix) (a : np.ndarray T)
    (i : nat) (row : list T) :
  is_matrix h self m a → np.rows a !! i = Some row →
  Z.of_nat (length row) = num_of_objects m.
Proof.
  intros Hm E. rewrite (im_objects _ _ _ _ Hm). f_equal.
  pose proof (im_rectangular _ _ _ _ Hm) as R. unfold np.rectangular in R.
  rewrite Forall_lookup in R. by apply (R _ _ E).
Qed.

(** X2. For every matrix, agent index in [0, num_of_agents) and object
    index in [0, num_of_objects): [v[agent]] returns the row of the agent,
    which has num_of_objects cells, [v[agent, object]] returns the cell of
    that row at the object, and neither raises. *)
Theorem getitem_in_range_returns (h : heap T) (self : loc) (m : ValuationMatrix)
    (a : np.ndarray T) (agent object : Z) :
  is_matrix h self m a →
  0 ≤ agent < num_of_agents m →
  0 ≤ object < num_of_objects m →
  ∃ row x,
    ValuationMatrix_getitem self (KeyInt agent) h = (Ok (ItemRow row), h)
    ∧ ValuationMatrix_getitem self (KeyTuple [agent; object]) h = (Ok (ItemValue x), h)
    ∧ Z.of_nat (length row) = num_of_objects m
    ∧ np.rows a !! Z.to_nat agent = Some row
    ∧ row !! Z.to_nat object = Some x.
Proof.
  intros Hm Ha Ho.
  destruct (agent_row _ _ _ _ _ Hm Ha) as (row & Er & Eg & Lr).
  destruct (lookup_lt_is_Some_2 row (Z.to_nat object)) as [x Ex]; [lia|].
  exists row, x. split_and!; try done.
  - by rewrite (getitem_int_run _ _ _ _ _ Hm), Eg.
  - rewrite (getitem_pair_run _ _ _ _ _ _ _ Hm). unfold array_value. rewrite Eg. simpl.
    by rewrite (getitem_in_range _ _ _ (proj1 Ho) Ex).
Qed.

Lemma getitem_from_end {A : Type} (l : list A) (i : Z) :
  - Z.of_nat (length l) ≤ i < 0 → np.getitem l i = np.getitem l (i + Z.of_nat (length l)).
Proof.
  intros H. unfold np.getitem. by rewrite index_from_end, index_in_range by lia.
Qed.

Lemma getitem_some {A : Type} (l : list A) (i : Z) (x : A) :
  np.getitem l i = Ok x → ∃ k : nat, l !! k = Some x.
Proof.
  unfold np.getitem. destruct (np.index (length l) i) as [k|e]; simpl; [|discriminate].
  destruct (l !! k) as [y|] eqn:E; [|discriminate]. intros [= ->]. eauto.
Qed.

(** X3. For every matrix, [v[agent, object]] raises [IndexError] when the
    agent index is outside [-num_of_agents, num_of_agents) or the object
    index is outside [-num_of_objects, num_of_objects), and [v[agent]]
    raises [IndexError] when the agent index is outside its interval. *)
Theorem getitem_out_of_range_raises (h : heap T) (self : loc) (m : ValuationMatrix)
    (a : np.ndarray T) (agent object : Z) :
  is_matrix h self m a →
  (agent < - num_of_agents m ∨ num_of_agents m ≤ agent)
  ∨ (object < - num_of_objects m ∨ num_of_objects m ≤ object) →
  ValuationMatrix_getitem self (KeyTuple [agent; object]) h = (Raise IndexError, h)
  ∧ ((agent < - num_of_agents m ∨ num_of_agents m ≤ agent) →
     ValuationMatrix_getitem self (KeyInt agent) h = (Raise IndexError, h)).
Proof.
  intros Hm Hout. pose proof (im_agents _ _ _ _ Hm) as Hag. split.
  - rewrite (getitem_pair_run _ _ _ _ _ _ _ Hm). unfold array_value.
    destruct (getitem_cases (np.rows a) agent) as [[row Er]|Er]; rewrite Er; simpl; [|done].
    destruct Hout as [Hout|Hout].
    + rewrite getitem_out_of_range in Er; [discriminate|lia].
    + destruct (getitem_some _ _ _ Er) as [k Ek].
      rewrite getitem_out_of_range; [done|].
      by rewrite (rows_length _ _ _ _ _ _ Hm Ek).
  - intros Hagent. rewrite (getitem_int_run _ _ _ _ _ Hm).
    rewrite getitem_out_of_range; [done|lia].
Qed.

(** X4. For every matrix, a negative index counts from the end: for an
    agent index in [-num_of_agents, 0) and an object index in
    [-num_of_objects, 0), [v[agent]] is [v[agent + num_of_agents]] and
    [v[agent, object]] is
    [v[agent + num_of_agents, object + num_of_objects]]. *)
Theorem getitem_negative_from_end (h : heap T) (self : loc) (m : ValuationMatrix)
    (a : np.ndarray T) (agent object : Z) :
  is_matrix h self m a →
  - num_of_agents m ≤ agent < 0 →
  - num_of_objects m ≤ object < 0 →
  ValuationMatrix_getitem self (KeyInt agent) h =
    ValuationMatrix_getitem self (KeyInt (agent + num_of_agents m)) h
  ∧ ValuationMatrix_getitem self (KeyTuple [agent; object]) h =
      ValuationMatrix_getitem self
        (KeyTuple [agent + num_of_agents m; object + num_of_objects m]) h.
Proof.
  intros Hm Ha Ho. pose proof (im_agents _ _ _ _ Hm) as Hag.
  assert (np.getitem (np.rows a) agent = np.getitem (np.rows a) (agent + num_of_agents m)) as Er.
  { rewrite Hag. apply getitem_from_end. lia. }
  split.
  - by rewrite !(getitem_int_run _ _ _ _ _ Hm), Er.
  - rewrite !(getitem_pair_run _ _ _ _ _ _ _ Hm). unfold array_value. rewrite <- Er.
    destruct (np.getitem (np.rows a) agent) as [row|e] eqn:E; simpl; [|done].
    destruct (getitem_some _ _ _ E) as [k Ek].
    rewrite <- (rows_length _ _ _ _ _ _ Hm Ek).
    rewrite getitem_from_end; [done|]. rewrite (rows_length _ _ _ _ _ _ Hm Ek). lia.
Qed.

(** ** [agents] and [objects] *)

Lemma range_lookup (n : Z) (k : nat) (i : Z) :
  map Z.of_nat (seq 0 (Z.to_nat n)) !! k = Some i → i = Z.of_nat k ∧ 0 ≤ i < n.
Proof.
  change (map Z.of_nat (seq 0 (Z.to_nat n))) with (Z.of_nat <$> seq 0 (Z.to_nat n)).
  rewrite list_lookup_fmap. intros E.
  destruct (seq 0 (Z.to_nat n) !! k) as [j|] eqn:Ej; [|discriminate].
  simpl in E. injection E as <-. apply lookup_seq in Ej as [-> Hk]. simpl. lia.
Qed.

Lemma range_elem_of (n i : Z) :
  i ∈ map Z.of_nat (seq 0 (Z.to_nat n)) ↔ 0 ≤ i < n.
Proof.
  change (map Z.of_nat (seq 0 (Z.to_nat n))) with (Z.of_nat <$> seq 0 (Z.to_nat n)).
  rewrite list_elem_of_fmap. split.
  - intros (j & -> & Hj). apply elem_of_seq in Hj. lia.
  - intros Hi. exists (Z.to_nat i). split; [lia|]. apply elem_of_seq. lia.
Qed.

(** X5. For every matrix, [agents()] yields 0, 1, ..., num_of_agents - 1 in
    this order and [objects()] yields 0, 1, ..., num_of_objects - 1; for
    every agent and object they yield, [v[agent, object]] returns a cell
    and does not raise. *)
Theorem agents_objects_enumerate (h : heap T) (self : loc) (m : ValuationMatrix) (a : np.ndarray T) :
  is_matrix h self m a →
  ∃ la lo : list Z,
    agents self h = (Ok la, h)
    ∧ objects self h = (Ok lo, h)
    ∧ Z.of_nat (length la) = num_of_agents m
    ∧ Z.of_nat (length lo) = num_of_objects m
    ∧ (∀ (k : nat) (i : Z), la !! k = Some i → i = Z.of_nat k)
    ∧ (∀ (k : nat) (j : Z), lo !! k = Some j → j = Z.of_nat k)
    ∧ (∀ i j, i ∈ la → j ∈ lo →
         ∃ x, ValuationMatrix_getitem self (KeyTuple [i; j]) h = (Ok (ItemValue x), h)).
Proof.
  intros Hm.
  pose proof (im_agents _ _ _ _ Hm) as Hag. pose proof (im_objects _ _ _ _ Hm) as Hob.
  exists (map Z.of_nat (seq 0 (Z.to_nat (num_of_agents m)))),
         (map Z.of_nat (seq 0 (Z.to_nat (num_of_objects m)))).
  split_and!.
  - unfold agents. by rewrite bind_run, (load_matrix_run _ _ _ (im_object _ _ _ _ Hm)).
  - unfold objects. by rewrite bind_run, (load_matrix_run _ _ _ (im_object _ _ _ _ Hm)).
  - rewrite length_map, length_seq. lia.
  - rewrite length_map, length_seq. lia.
  - intros k i E. by apply range_lookup in E as [-> _].
  - intros k j E. by apply range_lookup in E as [-> _].
  - intros i j Hi Hj. apply range_elem_of in Hi. apply range_elem_of in Hj.
    destruct (agent_row _ _ _ _ _ Hm Hi) as (row & Er & Eg & Lr).
    destruct (lookup_lt_is_Some_2 row (Z.to_nat j)) as [x Ex]; [lia|].
    exists x. rewrite (getitem_pair_run _ _ _ _ _ _ _ Hm). unfold array_value.
    rewrite Eg. simpl. by rewrite (getitem_in_range _ _ _ (proj1 Hj) Ex).
Qed.

(** ** More on [agent_value_for_bundle] *)

(** The call on any agent index, valid or not. *)
Lemma bundle_run_any (h : heap T) (self : loc) (m : ValuationMatrix) (a : np.ndarray T)
    (agent : Z) (bundle : list Z) :
  is_matrix h self m a →
  agent_value_for_bundle self agent (Some bundle) h =
    (result_bind (collect (array_value a agent) bundle) (λ vals, Ok (sum vals)), h).
Proof.
  intros Hm. unfold agent_value_for_bundle. rewrite bind_run.
  rewrite (comprehension_read_only _ (array_value a agent)).
  - by destruct (collect _ bundle).
  - intros o. by rewrite (value_at_run _ _ _ _ _ _ Hm).
Qed.

Lemma array_value_cases (a : np.ndarray T) (agent object : Z) :
  (∃ x, array_value a agent object = Ok x) ∨ array_value a agent object = Raise IndexError.
Proof.
  unfold array_value.
  destruct (getitem_cases (np.rows a) agent) as [[row Er]|Er]; rewrite Er; simpl; [|by right].
  apply getitem_cases.
Qed.

Lemma collect_row (pre row : list T) :
  collect (np.getitem (pre ++ row))
          (map Z.of_nat (seq (length pre) (length row))) = Ok row.
Proof.
  revert pre. induction row as [|x row IH]; intros pre; [reflexivity|].
  simpl. rewrite (getitem_in_range _ _ x) by (try lia; by rewrite Nat2Z.id, list_lookup_middle).
  simpl. specialize (IH (pre ++ [x])).
  rewrite <- app_assoc, length_app in IH. simpl in IH.
  rewrite Nat.add_1_r in IH. by rewrite IH.
Qed.

(** X8. For every matrix and agent index in [0, num_of_agents), the value
    of the bundle of all objects, as [objects()] yields them, is Python's
    [sum] of the row of the agent: its cells added from the left, in the
    arithmetic of the dtype. *)
Theorem bundle_of_all_objects (h : heap T) (self : loc) (m : ValuationMatrix)
    (a : np.ndarray T) (agent : Z) :
  is_matrix h self m a →
  0 ≤ agent < num_of_agents m →
  ∃ row,
    np.rows a !! Z.to_nat agent = Some row
    ∧ (all ← objects self; agent_value_for_bundle self agent (Some all)) h
      = (Ok (sum row), h).
Proof.
  intros Hm Ha.
  destruct (agent_row _ _ _ _ _ Hm Ha) as (row & Er & Eg & Lr).
  exists row. split; [done|].
  rewrite bind_run. unfold objects at 1.
  rewrite bind_run, (load_matrix_run _ _ _ (im_object _ _ _ _ Hm)).
  unfold mret, M_ret. cbv beta iota.
  rewrite (bundle_run _ _ _ _ _ _ _ Hm Eg).
  rewrite <- Lr, Nat2Z.id.
  pose proof (collect_row [] row) as C. simpl in C. by rewrite C.
Qed.

(** X9. For every matrix of a dtype in which [0 + x] is [x], and all
    indices, valid or not, [v[agent, object]] and
    [agent_value_for_bundle(agent, [object])] have the same outcome: the
    cell [self._v[agent][object]], or the exception that reading it
    raises. *)
Theorem getitem_is_singleton_bundle (h : heap T) (self : loc) (m : ValuationMatrix)
    (a : np.ndarray T) (agent object : Z) :
  is_matrix h self m a →
  (∀ x : T, scalar_add scalar_zero x = x) →
  ValuationMatrix_getitem self (KeyTuple [agent; object]) h
  = (c ← value_at self agent object; mret (ItemValue c)) h
  ∧ agent_value_for_bundle self agent (Some [object]) h
    = (c ← value_at self agent object; mret (NpScalar c)) h.
Proof.
  intros Hm Hz. rewrite !bind_run, (value_at_run _ _ _ _ _ _ Hm).
  rewrite (getitem_pair_run _ _ _ _ _ _ _ Hm), (bundle_run_any _ _ _ _ _ _ Hm).
  fold (array_value a agent object). simpl.
  destruct (array_value a agent object) as [c|e]; simpl; [|done].
  unfold sum. simpl. by rewrite Hz.
Qed.

(** ** More on the constructor *)

(** X10. Construction from another matrix allocates no array: the store
    gains one object, the new matrix, whose attributes are those of the
    other matrix, the reference to the backing array included. *)
Theorem init_from_matrix_shares_array (h : heap T) (other : loc) (mo : ValuationMatrix)
    (a : np.ndarray T) :
  is_matrix h other mo a →
  ∃ self,
    ValuationMatrix_init (PyRef other) h = (Ok self, <[self := ObjMatrix mo]> h)
    ∧ h !! self = None
    ∧ is_matrix (<[self := ObjMatrix mo]> h) self mo a
    ∧ is_matrix (<[self := ObjMatrix mo]> h) other mo a.
Proof.
  intros Hm.
  destruct (init_matrix_is_matrix _ _ _ _ Hm) as (self & m & Run & N & Ev & Hs).
  assert (m = mo) as ->.
  { destruct m as [v na no], mo as [vo nao noo]. simpl in Ev. subst v.
    pose proof (im_agents _ _ _ _ Hs) as E1. pose proof (im_agents _ _ _ _ Hm) as E2.
    pose proof (im_objects _ _ _ _ Hs) as E3. pose proof (im_objects _ _ _ _ Hm) as E4.
    simpl in *. congruence. }
  exists self. split_and!; try done.
  eapply is_matrix_extends; [|exact Hm]. by apply insert_extends.
Qed.

(** X11. Construction from a rectangular list of lists of scalars of one
    dtype, with at least one row, returns a new matrix on a new array; its numbers of agents and of
    objects are the number of rows and the length of the rows, and
    [v[i]] gives back row [i] of the list. *)
Theorem init_from_table_reads_back (h : heap T) (table : list (list T)) (n : nat) :
  table ≠ [] →
  Forall (λ r, length r = n) table →
  ∃ self m h',
    ValuationMatrix_init (PyList table) h = (Ok self, h')
    ∧ h !! self = None
    ∧ h !! _v m = None
    ∧ extends h h'
    ∧ h' !! self = Some (ObjMatrix m)
    ∧ num_of_agents m = Z.of_nat (length table)
    ∧ num_of_objects m = Z.of_nat n
    ∧ ∀ (i : nat) (row : list T), table !! i = Some row →
        ValuationMatrix_getitem self (KeyInt (Z.of_nat i)) h' = (Ok (ItemRow row), h').
Proof.
  intros N Tn. set (a := np.NdArray table n).
  destruct (init_new_array h a Tn N) as (self & m & h' & Run & N1 & N2 & X & Hm).
  rewrite <- (init_list_run h table a) in Run by (by apply array_of_table).
  exists self, m, h'. split_and!; try done.
  - apply Hm.
  - apply (im_agents _ _ _ _ Hm).
  - apply (im_objects _ _ _ _ Hm).
  - intros i row E. rewrite (getitem_int_run _ _ _ _ _ Hm).
    rewrite (getitem_in_range _ _ row); [done|lia|]. by rewrite Nat2Z.id.
Qed.

(** X12. The constructor raises [IndexError] on every array without rows,
    whatever its number of columns, and leaves the store as it is; in
    every store it raises [IndexError] on the empty list as well. *)
Theorem init_without_rows_raises (h : heap T) :
  (∀ (l : loc) (a : np.ndarray T),
     h !! l = Some (ObjArray a) → np.rows a = [] →
     ValuationMatrix_init (PyRef l) h = (Raise IndexError, h))
  ∧ fst (ValuationMatrix_init (PyList []) h) = Raise IndexError.
Proof.
  split.
  - intros l a E R. by rewrite (init_array_run _ _ _ E), R.
  - rewrite (init_list_run h [] (np.NdArray [] 0) eq_refl).
    by rewrite (init_array_run _ _ _ (lookup_insert_eq _ _ _)).
Qed.

(** ** More on [without_agent] and [without_object] *)

Lemma index_negative (n : nat) (i : Z) :
  - Z.of_nat n ≤ i < 0 → np.index n i = np.index n (i + Z.of_nat n).
Proof. intros H. by rewrite index_from_end, index_in_range by lia. Qed.

(** X13. For every matrix, [without_agent] raises [IndexError] on an agent
    index outside [-num_of_agents, num_of_agents), [without_object] raises
    [IndexError] on an object index outside
    [-num_of_objects, num_of_objects), and both leave the store as it
    is. *)
Theorem reductions_out_of_range_raise (h : heap T) (self : loc) (m : ValuationMatrix)
    (a : np.ndarray T) (agent object : Z) :
  is_matrix h self m a →
  agent < - num_of_agents m ∨ num_of_agents m ≤ agent →
  object < - num_of_objects m ∨ num_of_objects m ≤ object →
  without_agent self agent h = (Raise IndexError, h)
  ∧ without_object self object h = (Raise IndexError, h).
Proof.
  intros Hm Ha Ho.
  pose proof (im_agents _ _ _ _ Hm) as Hag. pose proof (im_objects _ _ _ _ Hm) as Hob.
  split.
  - rewrite (without_agent_run _ _ _ _ _ Hm). unfold np.delete.
    rewrite index_out_of_range; [done|lia].
  - rewrite (without_object_run _ _ _ _ _ Hm). unfold np.delete.
    rewrite index_out_of_range; [done|lia].
Qed.

(** X14. For every matrix, the reductions count a negative index from the
    end: [without_agent(agent)] for an index in [-num_of_agents, 0) is
    [without_agent(agent + num_of_agents)], and [without_object(object)]
    for an index in [-num_of_objects, 0) is
    [without_object(object + num_of_objects)]. *)
Theorem reductions_negative_from_end (h : heap T) (self : loc) (m : ValuationMatrix)
    (a : np.ndarray T) (agent object : Z) :
  is_matrix h self m a →
  (- num_of_agents m ≤ agent < 0 →
   without_agent self agent h = without_agent self (agent + num_of_agents m) h)
  ∧ (- num_of_objects m ≤ object < 0 →
     without_object self object h = without_object self (object + num_of_objects m) h).
Proof.
  intros Hm.
  pose proof (im_agents _ _ _ _ Hm) as Hag. pose proof (im_objects _ _ _ _ Hm) as Hob.
  split.
  - intros Ha. rewrite !(without_agent_run _ _ _ _ _ Hm). unfold np.delete.
    rewrite Hag. by rewrite index_negative by lia.
  - intros Ho. rewrite !(without_object_run _ _ _ _ _ Hm). unfold np.delete.
    rewrite Hob. by rewrite index_negative by lia.
Qed.

(** What [without_agent] and [without_object] return, with the array. *)
Lemma without_agent_exact (h : heap T) (self : loc) (m : ValuationMatrix) (a : np.ndarray T)
    (agent : Z) :
  is_matrix h self m a →
  2 ≤ num_of_agents m →
  0 ≤ agent < num_of_agents m →
  ∃ self' m' h',
    without_agent self agent h = (Ok self', h')
    ∧ extends h h'
    ∧ is_matrix h' self' m' (np.NdArray (delete (Z.to_nat agent) (np.rows a)) (np.ncols a)).
Proof.
  intros Hm H2 Ha. pose proof (im_agents _ _ _ _ Hm) as Hag.
  rewrite (without_agent_run _ _ _ _ _ Hm), delete_row_run by lia.
  set (a' := np.NdArray (delete (Z.to_nat agent) (np.rows a)) (np.ncols a)).
  assert (length (np.rows a') = (length (np.rows a) - 1)%nat) as L.
  { apply length_delete, lookup_lt_is_Some. lia. }
  destruct (init_new_array h a') as (self' & m' & h' & Run & _ & _ & X & Hm').
  { apply delete_row_rectangular, Hm. }
  { intros E. rewrite E in L. simpl in L. lia. }
  by exists self', m', h'.
Qed.

Lemma without_object_exact (h : heap T) (self : loc) (m : ValuationMatrix) (a : np.ndarray T)
    (object : Z) :
  is_matrix h self m a →
  0 ≤ object < num_of_objects m →
  ∃ self' m' h',
    without_object self object h = (Ok self', h')
    ∧ extends h h'
    ∧ is_matrix h' self' m'
        (np.NdArray (delete (Z.to_nat object) <$> np.rows a) (np.ncols a - 1)).
Proof.
  intros Hm Ho. pose proof (im_objects _ _ _ _ Hm) as Hob.
  rewrite (without_object_run _ _ _ _ _ Hm), delete_column_run by lia.
  set (a' := np.NdArray (delete (Z.to_nat object) <$> np.rows a) (np.ncols a - 1)).
  destruct (init_new_array h a') as (self' & m' & h' & Run & _ & _ & X & Hm').
  { apply delete_column_rectangular; [lia|apply Hm]. }
  { simpl. intros E. apply fmap_nil_inv in E. by apply (im_first_row _ _ _ _ Hm). }
  by exists self', m', h'.
Qed.

(** X15. The two reductions commute: for every matrix without NaN, with at
    least two agents, and valid indices, removing the agent and then the object, and
    removing the object and then the agent, give matrices that are
    [equals]. *)
Theorem reductions_commute (h : heap T) (self : loc) (m : ValuationMatrix) (a : np.ndarray T)
    (agent object : Z) :
  is_matrix h self m a →
  no_nan (np.rows a) →
  2 ≤ num_of_agents m →
  0 ≤ agent < num_of_agents m →
  0 ≤ object < num_of_objects m →
  ∃ h',
    (x ← without_agent self agent;
     x' ← without_object x object;
     y ← without_object self object;
     y' ← without_agent y agent;
     equals x' y') h = (Ok true, h').
Proof.
  intros Hm NaN H2 Ha Ho.
  pose proof (im_agents _ _ _ _ Hm) as Hag. pose proof (im_objects _ _ _ _ Hm) as Hob.
  destruct (without_agent_exact _ _ _ _ _ Hm H2 Ha) as (x & mx & h1 & Rx & X1 & Hx).
  destruct (without_object_exact h1 x mx _ object Hx) as (x' & mx' & h2 & Rx' & X2 & Hx').
  { rewrite (im_objects _ _ _ _ Hx). simpl. lia. }
  pose proof (is_matrix_extends _ _ _ _ _ (extends_trans _ _ _ X1 X2) Hm) as Hm2.
  destruct (without_object_exact h2 self m a object Hm2 Ho) as (y & my & h3 & Ry & X3 & Hy).
  destruct (without_agent_exact h3 y my _ agent Hy) as (y' & my' & h4 & Ry' & X4 & Hy').
  { rewrite (im_agents _ _ _ _ Hy). simpl. rewrite length_fmap. lia. }
  { rewrite (im_agents _ _ _ _ Hy). simpl. rewrite length_fmap. lia. }
  simpl in Hx', Hy'. rewrite list_fmap_delete in Hx'.
  pose proof (is_matrix_extends _ _ _ _ _ (extends_trans _ _ _ X3 X4) Hx') as Hx4.
  exists h4.
  rewrite bind_run, Rx, bind_run, Rx', bind_run, Ry, bind_run, Ry'.
  rewrite (equals_run _ _ _ _ _ _ _ Hx4 Hy'). rewrite array_equal_refl; [done|].
  simpl. by apply no_nan_delete_row, no_nan_delete_column.
Qed.

Lemma getitem_fmap {A B : Type} (f : A → B) (l : list A) (i : Z) :
  np.getitem (f <$> l) i = result_bind (np.getitem l i) (λ x, Ok (f x)).
Proof.
  unfold np.getitem. rewrite length_fmap.
  destruct (np.index (length l) i) as [k|e]; simpl; [|done].
  rewrite list_lookup_fmap. by destruct (l !! k).
Qed.

Lemma getitem_delete {A : Type} (l : list A) (k : nat) (i : Z) :
  (k < length l)%nat →
  0 ≤ i < Z.of_nat (length l) - 1 →
  np.getitem (delete k l) i = np.getitem l (skip_index (Z.of_nat k) i).
Proof.
  intros Hk Hi. unfold np.getitem, skip_index.
  rewrite length_delete by (by apply lookup_lt_is_Some).
  rewrite !index_in_range by (destruct (Z.ltb_spec i (Z.of_nat k)); lia). simpl.
  rewrite list_lookup_delete.
  destruct (Z.ltb_spec i (Z.of_nat k)); case_decide; try lia; [done|].
  by replace (Z.to_nat (i + 1)) with (S (Z.to_nat i)) by lia.
Qed.

Lemma collect_fmap {A B : Type} (g g' : A → result B) (f : A → A) (l : list A) :
  Forall (λ x, g x = g' (f x)) l → collect g l = collect g' (f <$> l).
Proof.
  induction 1 as [|x l E _ IH]; [done|]. simpl. by rewrite E, IH.
Qed.

(** X16. For every matrix and object index in [0, num_of_objects),
    [without_object] returns a matrix in which every agent index gives, to
    a bundle of indices in [0, num_of_objects - 1), the value that the
    original gives to the bundle of the same objects under their original
    indices: the indices from the removed one on are shifted by one. *)
Theorem without_object_keeps_values (h : heap T) (self : loc) (m : ValuationMatrix)
    (a : np.ndarray T) (object agent : Z) (bundle : list Z) :
  is_matrix h self m a →
  0 ≤ object < num_of_objects m →
  Forall (λ j, 0 ≤ j < num_of_objects m - 1) bundle →
  ∃ self' h',
    without_object self object h = (Ok self', h')
    ∧ fst (agent_value_for_bundle self' agent (Some bundle) h')
      = fst (agent_value_for_bundle self agent (Some (skip_index object <$> bundle)) h).
Proof.
  intros Hm Ho Hb. pose proof (im_objects _ _ _ _ Hm) as Hob.
  destruct (without_object_exact _ _ _ _ _ Hm Ho) as (self' & m' & h' & Run & X & Hm').
  exists self', h'. split; [done|].
  rewrite (bundle_run_any _ _ _ _ _ _ Hm'), (bundle_run_any _ _ _ _ _ _ Hm). simpl.
  f_equal. apply collect_fmap.
  eapply Forall_impl; [exact Hb|]. intros j Hj. simpl in Hj.
  unfold array_value. simpl. rewrite getitem_fmap.
  destruct (np.getitem (np.rows a) agent) as [row|e] eqn:Er; simpl; [|done].
  destruct (getitem_some _ _ _ Er) as [i Ei].
  pose proof (rows_length _ _ _ _ _ _ Hm Ei) as Lr.
  rewrite getitem_delete by lia. by rewrite Z2Nat.id by lia.
Qed.

(** X17. For every matrix with at least two agents and agent index in
    [0, num_of_agents), [without_agent] returns a matrix in which the
    agent index [i] in [0, num_of_agents - 1) gives to every bundle the
    outcome that the original gives under the original index of that
    agent: the indices from the removed one on are shifted by one. *)
Theorem without_agent_keeps_values (h : heap T) (self : loc) (m : ValuationMatrix)
    (a : np.ndarray T) (agent i : Z) (bundle : option (list Z)) :
  is_matrix h self m a →
  2 ≤ num_of_agents m →
  0 ≤ agent < num_of_agents m →
  0 ≤ i < num_of_agents m - 1 →
  ∃ self' h',
    without_agent self agent h = (Ok self', h')
    ∧ fst (agent_value_for_bundle self' i bundle h')
      = fst (agent_value_for_bundle self (skip_index agent i) bundle h).
Proof.
  intros Hm H2 Ha Hi. pose proof (im_agents _ _ _ _ Hm) as Hag.
  destruct (without_agent_exact _ _ _ _ _ Hm H2 Ha) as (self' & m' & h' & Run & X & Hm').
  exists self', h'. split; [done|].
  destruct bundle as [b|]; [|done].
  rewrite (bundle_run_any _ _ _ _ _ _ Hm'), (bundle_run_any _ _ _ _ _ _ Hm). simpl.
  do 2 f_equal. unfold array_value. simpl.
  rewrite getitem_delete by lia. by rewrite Z2Nat.id by lia.
Qed.

(** ** More on [equals] *)

Lemma equals_true_rows (h : heap T) (x y : loc) (mx my : ValuationMatrix)
    (ax ay : np.ndarray T) :
  is_matrix h x mx ax → is_matrix h y my ay →
  equals x y h = (Ok true, h) →
  np.ncols ax = np.ncols ay
  ∧ Forall2 (Forall2 (λ c d, scalar_eqb c d = true)) (np.rows ax) (np.rows ay).
Proof.
  intros Hx Hy E. rewrite (equals_run _ _ _ _ _ _ _ Hx Hy) in E.
  assert (np.array_equal ax ay = true) as E' by (by injection E).
  apply (array_equal_Forall2 _ _ (im_rectangular _ _ _ _ Hx) (im_rectangular _ _ _ _ Hy)) in E'.
  destruct E' as [S F]. unfold np.shape in S. by injection S as _ C.
Qed.

(** X20. The reductions respect [equals]: when [x.equals(y)] returns true,
    removing the same object, of an index in [0, num_of_objects), from
    both gives matrices that are [equals]; so does removing the same
    agent, of an index in [0, num_of_agents), when there are at least two
    agents. *)
Theorem reductions_respect_equals (h : heap T) (x y : loc) (mx my : ValuationMatrix)
    (ax ay : np.ndarray T) (agent object : Z) :
  is_matrix h x mx ax →
  is_matrix h y my ay →
  equals x y h = (Ok true, h) →
  (0 ≤ object < num_of_objects mx →
   ∃ h', (x' ← without_object x object; y' ← without_object y object; equals x' y') h
         = (Ok true, h'))
  ∧ (2 ≤ num_of_agents mx → 0 ≤ agent < num_of_agents mx →
     ∃ h', (x' ← without_agent x agent; y' ← without_agent y agent; equals x' y') h
           = (Ok true, h')).
Proof.
  intros Hx Hy E.
  destruct (equals_true_rows _ _ _ _ _ _ _ Hx Hy E) as [C F].
  pose proof (Forall2_length _ _ _ F) as L.
  assert (num_of_agents my = num_of_agents mx) as Eag
    by (rewrite (im_agents _ _ _ _ Hx), (im_agents _ _ _ _ Hy); lia).
  assert (num_of_objects my = num_of_objects mx) as Eob
    by (rewrite (im_objects _ _ _ _ Hx), (im_objects _ _ _ _ Hy); lia).
  split.
  - intros Ho.
    destruct (without_object_exact _ _ _ _ _ Hx Ho) as (x' & mx' & h1 & Rx & X1 & Hx').
    pose proof (is_matrix_extends _ _ _ _ _ X1 Hy) as Hy1.
    destruct (without_object_exact h1 y my ay object Hy1) as (y' & my' & h2 & Ry & X2 & Hy');
      [lia|].
    pose proof (is_matrix_extends _ _ _ _ _ X2 Hx') as Hx2.
    exists h2. rewrite bind_run, Rx, bind_run, Ry.
    rewrite (equals_run _ _ _ _ _ _ _ Hx2 Hy'). do 2 f_equal.
    apply (array_equal_Forall2 _ _ (im_rectangular _ _ _ _ Hx2) (im_rectangular _ _ _ _ Hy')).
    unfold np.shape. simpl. rewrite !length_fmap, L, C. split; [done|].
    apply Forall2_fmap. eapply Forall2_impl; [exact F|].
    intros r1 r2 Hr. simpl. by apply Forall2_delete.
  - intros H2 Ha.
    destruct (without_agent_exact _ _ _ _ _ Hx H2 Ha) as (x' & mx' & h1 & Rx & X1 & Hx').
    pose proof (is_matrix_extends _ _ _ _ _ X1 Hy) as Hy1.
    destruct (without_agent_exact h1 y my ay agent Hy1) as (y' & my' & h2 & Ry & X2 & Hy');
      [lia|lia|].
    pose proof (is_matrix_extends _ _ _ _ _ X2 Hx') as Hx2.
    exists h2. rewrite bind_run, Rx, bind_run, Ry.
    rewrite (equals_run _ _ _ _ _ _ _ Hx2 Hy'). do 2 f_equal.
    apply (array_equal_Forall2 _ _ (im_rectangular _ _ _ _ Hx2) (im_rectangular _ _ _ _ Hy')).
    unfold np.shape. simpl. rewrite C.
    pose proof (Forall2_delete _ _ _ (Z.to_nat agent) F) as F'.
    by rewrite (Forall2_length _ _ _ F').
Qed.

(** ** The agent index of [agent_value_for_bundle] *)

Lemma collect_cells (row : list T) (bundle : list Z) :
  Forall (λ o, 0 ≤ o < Z.of_nat (length row)) bundle →
  ∃ cells : list T,
    Forall2 (λ o c, row !! Z.to_nat o = Some c) bundle cells
    ∧ collect (np.getitem row) bundle = Ok cells.
Proof.
  induction 1 as [|o bundle [Hlo Hhi] _ (cells & F & E)].
  - exists []. by split.
  - destruct (lookup_lt_is_Some_2 row (Z.to_nat o)) as [c Ec]; [lia|].
    exists (c :: cells). split; [by constructor|].
    simpl. by rewrite (getitem_in_range _ _ _ Hlo Ec), E.
Qed.

(** X22. For every matrix of any dtype, every agent index in
    [0, num_of_agents) and every bundle of object indices in
    [0, num_of_objects), [agent_value_for_bundle] returns Python's [sum]
    of the cells [v[agent][o]], taken in the order of the bundle, one per
    element: the [int] 0 for the empty bundle, and otherwise the cells
    added from the left, starting from 0, in the arithmetic of the
    dtype.  The store is left as it is. *)
Theorem bundle_value_is_left_sum (h : heap T) (self : loc) (m : ValuationMatrix)
    (a : np.ndarray T) (agent : Z) (bundle : list Z) :
  is_matrix h self m a →
  0 ≤ agent < num_of_agents m →
  Forall (λ o, 0 ≤ o < num_of_objects m) bundle →
  ∃ cells : list T,
    Forall2 (λ o c, cell a (Z.to_nat agent) (Z.to_nat o) = Some c) bundle cells
    ∧ agent_value_for_bundle self agent (Some bundle) h = (Ok (sum cells), h).
Proof.
  intros Hm Ha Hb.
  destruct (agent_row _ _ _ _ _ Hm Ha) as (row & Er & Eg & Lr).
  destruct (collect_cells row bundle) as (cells & F & E); [by rewrite Lr|].
  exists cells. split.
  - eapply Forall2_impl; [exact F|]. intros o c Hc. unfold cell. by rewrite Er.
  - by rewrite (bundle_run _ _ _ _ _ _ _ Hm Eg), E.
Qed.

(** X21. For every matrix, [agent_value_for_bundle] raises [IndexError] on
    an agent index outside [-num_of_agents, num_of_agents) when the bundle
    has an element, whatever the element; the agent index is read once
    per element, so that on the empty bundle the same call returns 0. *)
Theorem bundle_agent_out_of_range (h : heap T) (self : loc) (m : ValuationMatrix)
    (a : np.ndarray T) (agent o : Z) (bundle : list Z) :
  is_matrix h self m a →
  agent < - num_of_agents m ∨ num_of_agents m ≤ agent →
  agent_value_for_bundle self agent (Some (o :: bundle)) h = (Raise IndexError, h)
  ∧ agent_value_for_bundle self agent (Some []) h = (Ok (PyInt 0), h).
Proof.
  intros Hm Ha. pose proof (im_agents _ _ _ _ Hm) as Hag. split; [|done].
  rewrite (bundle_run_any _ _ _ _ _ _ Hm). simpl. unfold array_value at 1.
  rewrite getitem_out_of_range; [done|lia].
Qed.

End generic.

(** * 64-bit integers *)

Lemma wrap64_range (z : Z) : - 2 ^ 63 ≤ wrap64 z < 2 ^ 63.
Proof.
  unfold wrap64. pose proof (Z.mod_pos_bound (z + 2 ^ 63) (2 ^ 64)). lia.
Qed.

Lemma in_int64_spec (z : Z) : Is_true (in_int64 z) ↔ - 2 ^ 63 ≤ z < 2 ^ 63.
Proof.
  unfold in_int64. rewrite andb_True, !Is_true_true, Z.leb_le, Z.ltb_lt. done.
Qed.

Lemma wrap64_id (z : Z) : - 2 ^ 63 ≤ z < 2 ^ 63 → wrap64 z = z.
Proof. intros H. unfold wrap64. rewrite Z.mod_small; lia. Qed.

Lemma wrap64_add_l (x y : Z) : wrap64 (wrap64 x + y) = wrap64 (x + y).
Proof.
  unfold wrap64.
  replace ((x + 2 ^ 63) mod 2 ^ 64 - 2 ^ 63 + y + 2 ^ 63)
    with ((x + 2 ^ 63) mod 2 ^ 64 + y) by lia.
  rewrite Zplus_mod_idemp_l. f_equal. f_equal. lia.
Qed.

Lemma int64_of_Z_val (z : Z) : int64_val (int64_of_Z z) = wrap64 z.
Proof.
  unfold int64_of_Z. destruct (decide _) as [p|n]; [done|].
  destruct n. apply in_int64_spec, wrap64_range.
Qed.

Lemma int64_val_range (x : int64) : - 2 ^ 63 ≤ int64_val x < 2 ^ 63.
Proof. apply in_int64_spec, int64_range. Qed.

Lemma int64_eq (x y : int64) : int64_val x = int64_val y → x = y.
Proof.
  destruct x as [vx px], y as [vy py]. simpl. intros ->.
  f_equal. apply proof_irrel.
Qed.

(** The [int] 0 is neutral for the addition of [int64] scalars. *)
Lemma int64_zero_neutral (x : int64) : scalar_add scalar_zero x = x.
Proof.
  apply int64_eq. simpl. rewrite !int64_of_Z_val. simpl.
  apply wrap64_id, int64_val_range.
Qed.

Lemma int64_eqb_sym (x y : int64) : scalar_eqb x y = scalar_eqb y x.
Proof. simpl. apply Z.eqb_sym. Qed.

(** Additions from the left wrap around once, at the end. *)
Lemma fold_left_int64 (l : list int64) (acc : int64) :
  int64_val (fold_left scalar_add l acc)
  = wrap64 (int64_val acc + foldr (λ x s, int64_val x + s) 0 l).
Proof.
  revert acc. induction l as [|x l IH]; intros acc; simpl.
  - rewrite Z.add_0_r. symmetry. apply wrap64_id, int64_val_range.
  - rewrite IH, int64_of_Z_val, wrap64_add_l. f_equal. lia.
Qed.

(** Python's [sum] on [int64] scalars: the sum modulo 2^64. *)
Lemma sum_int64 (x : int64) (l : list int64) :
  sum (x :: l) = NpScalar (int64_of_Z (foldr (λ y s, int64_val y + s) 0 (x :: l))).
Proof.
  unfold sum. f_equal. apply int64_eq.
  rewrite fold_left_int64, (int64_zero_neutral x), int64_of_Z_val. done.
Qed.

Lemma cell_value_row (a : np.ndarray int64) (i j : nat) (row : list int64) (x : int64) :
  np.rows a !! i = Some row → row !! j = Some x → cell_value a i j = int64_val x.
Proof. intros Er Ex. unfold cell_value, cell. rewrite Er. simpl. by rewrite Ex. Qed.

Lemma occurrences_cons (j : nat) (o : Z) (bundle : list Z) :
  occurrences j (o :: bundle) =
    ((if decide (o = Z.of_nat j) then 1 else 0) + occurrences j bundle)%nat.
Proof. unfold occurrences. rewrite filter_cons. by case_decide. Qed.

(** Adding one occurrence of [o] to the bundle adds the terms of the
    objects equal to [o]. *)
Lemma weighted_cons (c : nat → Z) (o : Z) (bundle : list Z) (js : list nat) :
  foldr (λ j acc, Z.of_nat (occurrences j (o :: bundle)) * c j + acc) 0 js =
    foldr (λ j acc, (if decide (o = Z.of_nat j) then c j else 0) + acc) 0 js
    + foldr (λ j acc, Z.of_nat (occurrences j bundle) * c j + acc) 0 js.
Proof.
  induction js as [|j js IH]; [reflexivity|].
  simpl. rewrite IH, occurrences_cons. case_decide; lia.
Qed.

(** Among consecutive objects, exactly one is equal to a given one. *)
Lemma one_object_of_seq (c : nat → Z) (o : Z) (s n : nat) :
  0 ≤ o →
  foldr (λ j acc, (if decide (o = Z.of_nat j) then c j else 0) + acc) 0 (seq s n) =
    if decide (s ≤ Z.to_nat o < s + n)%nat then c (Z.to_nat o) else 0.
Proof.
  intros Ho. revert s. induction n as [|n IH]; intros s; simpl.
  - case_decide; [lia|reflexivity].
  - rewrite IH. repeat case_decide; try lia.
    subst o. by rewrite Nat2Z.id, Z.add_0_r.
Qed.

Lemma bundle_total_weighted (a : np.ndarray int64) (i : nat) (bundle : list Z) :
  Forall (λ o, 0 ≤ o < Z.of_nat (np.ncols a)) bundle →
  bundle_total a i bundle = weighted_total a i bundle.
Proof.
  induction 1 as [|o bundle [Hlo Hhi] _ IH].
  - unfold weighted_total. simpl. induction (seq 0 (np.ncols a)) as [|j js IHj]; [reflexivity|].
    simpl. rewrite <- IHj. reflexivity.
  - unfold weighted_total in *. rewrite weighted_cons, <- IH.
    rewrite one_object_of_seq by done. simpl.
    case_decide; [reflexivity|lia].
Qed.

(** The call on a bundle of valid indices, for a valid agent index. *)
Lemma bundle_sum_int64 (h : heap int64) (self : loc) (m : ValuationMatrix)
    (a : np.ndarray int64) (agent : Z) (bundle : list Z) :
  is_matrix h self m a →
  0 ≤ agent < num_of_agents m →
  Forall (λ o, 0 ≤ o < num_of_objects m) bundle →
  agent_value_for_bundle self agent (Some bundle) h =
    (Ok (int64_sum bundle (bundle_total a (Z.to_nat agent) bundle)), h).
Proof.
  intros Hm Ha Hb.
  destruct (agent_row _ _ _ _ _ Hm Ha) as (row & Er & Eg & Lr).
  rewrite (bundle_run _ _ _ _ _ _ _ Hm Eg).
  set (v := λ o : Z, default (int64_of_Z 0) (row !! Z.to_nat o)).
  assert (∀ o, cell_value a (Z.to_nat agent) (Z.to_nat o) = int64_val (v o)) as Hv.
  { intros o. unfold cell_value, cell, v. rewrite Er. simpl.
    by destruct (row !! Z.to_nat o). }
  rewrite (collect_all_ok _ v).
  - simpl. do 2 f_equal. unfold bundle_total.
    destruct bundle as [|o bundle]; [done|].
    change (map v (o :: bundle)) with (v o :: map v bundle).
    rewrite sum_int64. simpl. do 2 f_equal. rewrite Hv. f_equal.
    clear Hb. induction bundle as [|o' bundle IH]; [done|].
    simpl. by rewrite Hv, IH.
  - eapply Forall_impl; [exact Hb|]. intros o [Hlo Hhi]. simpl.
    destruct (lookup_lt_is_Some_2 row (Z.to_nat o)) as [x Ex]; [lia|].
    rewrite (getitem_in_range _ _ _ Hlo Ex). unfold v. by rewrite Ex.
Qed.

(** C1, amended.  For every matrix of 64-bit integers, every agent index in
    [0, num_of_agents) and every bundle of object indices in
    [0, num_of_objects), [agent_value_for_bundle] leaves the store as it
    is and returns the sum of [v[agent][o]] over the elements [o] of the
    bundle, reduced modulo 2^64 into [-2^63, 2^63): the sum itself
    whenever it lies in that interval (and the [int] 0 for the empty
    bundle).  An index that occurs several times is counted each time:
    the sum is also the sum over the objects of the cell times the number
    of occurrences. *)
Theorem agent_value_for_bundle_sum (h : heap int64) (self : loc) (m : ValuationMatrix)
    (a : np.ndarray int64) (agent : Z) (bundle : list Z) :
  is_matrix h self m a →
  0 ≤ agent < num_of_agents m →
  Forall (λ o, 0 ≤ o < num_of_objects m) bundle →
  agent_value_for_bundle self agent (Some bundle) h =
    (Ok (int64_sum bundle (bundle_total a (Z.to_nat agent) bundle)), h)
  ∧ bundle_total a (Z.to_nat agent) bundle = weighted_total a (Z.to_nat agent) bundle
  ∧ (- 2 ^ 63 ≤ bundle_total a (Z.to_nat agent) bundle < 2 ^ 63 →
     int64_val (int64_of_Z (bundle_total a (Z.to_nat agent) bundle))
     = bundle_total a (Z.to_nat agent) bundle).
Proof.
  intros Hm Ha Hb. split_and!.
  - by apply (bundle_sum_int64 _ _ _ _ _ _ Hm).
  - apply bundle_total_weighted.
    rewrite <- (im_objects _ _ _ _ Hm). exact Hb.
  - intros Hr. rewrite int64_of_Z_val. by apply wrap64_id.
Qed.

Lemma bundle_total_app (a : np.ndarray int64) (i : nat) (b1 b2 : list Z) :
  bundle_total a i (b1 ++ b2) = bundle_total a i b1 + bundle_total a i b2.
Proof.
  unfold bundle_total. induction b1 as [|o b1 IH]; simpl; [done|]. rewrite IH. lia.
Qed.

Lemma bundle_total_permutation (a : np.ndarray int64) (i : nat) (b1 b2 : list Z) :
  b1 ≡ₚ b2 → bundle_total a i b1 = bundle_total a i b2.
Proof.
  unfold bundle_total. induction 1 as [|o b1 b2 _ IH|o o' b|b1 b2 b3 _ IH1 _ IH2]; simpl.
  - done.
  - by rewrite IH.
  - lia.
  - by rewrite IH1.
Qed.

Lemma int64_add_of_Z (x y : Z) :
  scalar_add (int64_of_Z x) (int64_of_Z y) = int64_of_Z (x + y).
Proof.
  apply int64_eq. simpl. rewrite !int64_of_Z_val.
  rewrite wrap64_add_l, (Z.add_comm x (wrap64 y)), wrap64_add_l. f_equal. lia.
Qed.

(** X6. For every matrix of 64-bit integers, valid agent index and two
    bundles of valid object indices that are not empty, the value of the
    concatenation of the bundles is the sum of their values, added as
    64-bit integers. *)
Theorem bundle_value_additive (h : heap int64) (self : loc) (m : ValuationMatrix)
    (a : np.ndarray int64) (agent : Z) (b1 b2 : list Z) :
  is_matrix h self m a →
  0 ≤ agent < num_of_agents m →
  Forall (λ o, 0 ≤ o < num_of_objects m) b1 →
  Forall (λ o, 0 ≤ o < num_of_objects m) b2 →
  b1 ≠ [] → b2 ≠ [] →
  ∃ x y : int64,
    agent_value_for_bundle self agent (Some b1) h = (Ok (NpScalar x), h)
    ∧ agent_value_for_bundle self agent (Some b2) h = (Ok (NpScalar y), h)
    ∧ agent_value_for_bundle self agent (Some (b1 ++ b2)) h
      = (Ok (NpScalar (scalar_add x y)), h).
Proof.
  intros Hm Ha H1 H2 N1 N2.
  exists (int64_of_Z (bundle_total a (Z.to_nat agent) b1)),
         (int64_of_Z (bundle_total a (Z.to_nat agent) b2)).
  rewrite !(bundle_sum_int64 _ _ _ _ _ _ Hm Ha) by (try apply Forall_app; done).
  rewrite bundle_total_app, int64_add_of_Z.
  destruct b1 as [|o1 b1]; [done|]. by destruct b2 as [|o2 b2].
Qed.

(** X7. For every matrix of 64-bit integers and valid agent index, the
    value of a bundle of valid object indices does not depend on the order
    of the bundle: a permutation of the bundle has the same value. *)
Theorem bundle_value_permutation (h : heap int64) (self : loc) (m : ValuationMatrix)
    (a : np.ndarray int64) (agent : Z) (b1 b2 : list Z) :
  is_matrix h self m a →
  0 ≤ agent < num_of_agents m →
  Forall (λ o, 0 ≤ o < num_of_objects m) b1 →
  b1 ≡ₚ b2 →
  agent_value_for_bundle self agent (Some b1) h = agent_value_for_bundle self agent (Some b2) h.
Proof.
  intros Hm Ha H1 Hp.
  assert (Forall (λ o, 0 ≤ o < num_of_objects m) b2) as H2 by (by rewrite <- Hp).
  rewrite !(bundle_sum_int64 _ _ _ _ _ _ Hm Ha) by done.
  rewrite (bundle_total_permutation _ _ _ _ Hp).
  destruct b1 as [|o1 b1], b2 as [|o2 b2]; try done.
  - by apply Permutation_nil_l in Hp.
  - by apply Permutation_nil_r in Hp.
Qed.

(** * The properties on concrete stores *)

(** C1, as stated, fails on 64-bit integers: on [[2**62, 1]] the bundle
    [0, 0] has the sum 2^63, and the call returns -2^63. *)
Lemma int64_overflow_counterexample :
  is_matrix big_heap big_b (mkValuationMatrix 1%positive 1 2) (np.NdArray big_table 2)
  ∧ bundle_total (np.NdArray big_table 2) 0 [0; 0] = 2 ^ 63
  ∧ ∃ x : int64,
      agent_value_for_bundle big_b 0 (Some [0; 0]) big_heap = (Ok (NpScalar x), big_heap)
      ∧ int64_val x = - 2 ^ 63.
Proof.
  split; [solve_is_matrix|]. split; [reflexivity|].
  eexists. split; reflexivity.
Qed.

Lemma agent_value_for_bundle_sum_witness :
  agent_value_for_bundle doctest_v 1 (Some [1; 0; 1]) doctest_heap
  = (Ok (NpScalar (int64_of_Z 12)), doctest_heap)
  ∧ 12 = weighted_total (np.NdArray doctest_table 3) 1 [1; 0; 1]
  ∧ (- 2 ^ 63 ≤ 12 < 2 ^ 63 → int64_val (int64_of_Z 12) = 12).
Proof.
  apply (agent_value_for_bundle_sum doctest_heap doctest_v
           (mkValuationMatrix 1%positive 2 3) (np.NdArray doctest_table 3) 1 [1; 0; 1]).
  - solve_is_matrix.
  - simpl. lia.
  - repeat constructor; simpl; lia.
Defined.

(** C8, as stated, fails: the index -1 is outside [0, 3), and the call
    returns the last cell of the row. *)
Lemma negative_bundle_index_counterexample :
  is_matrix doctest_heap doctest_v (mkValuationMatrix 1%positive 2 3) (np.NdArray doctest_table 3)
  ∧ ¬ (0 ≤ -1 < 3)
  ∧ agent_value_for_bundle doctest_v 0 (Some [-1]) doctest_heap
    = (Ok (NpScalar (int64_of_Z 7)), doctest_heap).
Proof. split; [solve_is_matrix|]. split; [lia|reflexivity]. Qed.

Lemma bundle_index_out_of_range_witness :
  agent_value_for_bundle doctest_v 0 (Some [1; 5]) doctest_heap = (Raise IndexError, doctest_heap).
Proof.
  apply (bundle_index_out_of_range doctest_heap doctest_v
           (mkValuationMatrix 1%positive 2 3) (np.NdArray doctest_table 3) 0 [1; 5]).
  - solve_is_matrix.
  - simpl. lia.
  - apply Exists_cons_tl, Exists_cons_hd. simpl. lia.
Defined.

(** C3.  [without_agent] does not return a copy without the agent for every
    valid agent index: on the matrix [[6, 3, 0]], which has one agent, 0
    is a valid index and [without_agent(0)] raises [IndexError], where
    [without_object] on a matrix with one object returns.  With two agents
    or more the copy is returned (lemma [without_agent_removes_row]). *)
Lemma without_agent_single_counterexample :
  is_matrix single_heap single_w (mkValuationMatrix 1%positive 1 3) (np.NdArray single_table 3)
  ∧ 0 ≤ 0 < num_of_agents (mkValuationMatrix 1%positive 1 3)
  ∧ fst (without_agent single_w 0 single_heap) = Raise IndexError
  ∧ ¬ ∃ self' h', without_agent single_w 0 single_heap = (Ok self', h').
Proof.
  split; [solve_is_matrix|]. split; [simpl; lia|]. split; [reflexivity|].
  intros (self' & h' & E). apply (f_equal fst) in E. discriminate.
Qed.

Lemma without_agent_removes_row_witness :
  ∃ self' m' a' h',
    without_agent doctest_v 0 doctest_heap = (Ok self', h')
    ∧ doctest_heap !! self' = None
    ∧ doctest_heap !! _v m' = None
    ∧ is_matrix h' self' m' a'
    ∧ (∀ i : nat, Z.of_nat i < 0 → np.rows a' !! i = doctest_table !! i)
    ∧ (∀ i : nat, 0 ≤ Z.of_nat i → np.rows a' !! i = doctest_table !! S i)
    ∧ num_of_agents m' = 2 - 1
    ∧ num_of_objects m' = 3.
Proof.
  apply (without_agent_removes_row doctest_heap doctest_v
           (mkValuationMatrix 1%positive 2 3) (np.NdArray doctest_table 3) 0).
  - solve_is_matrix.
  - simpl. lia.
  - simpl. lia.
Defined.

Lemma without_object_removes_column_witness :
  ∃ self' m' a' h',
    without_object doctest_v 1 doctest_heap = (Ok self', h')
    ∧ doctest_heap !! self' = None
    ∧ doctest_heap !! _v m' = None
    ∧ is_matrix h' self' m' a'
    ∧ (∀ i j : nat, Z.of_nat j < 1 → cell a' i j = cell (np.NdArray doctest_table 3) i j)
    ∧ (∀ i j : nat, 1 ≤ Z.of_nat j → cell a' i j = cell (np.NdArray doctest_table 3) i (S j))
    ∧ num_of_objects m' = 3 - 1
    ∧ num_of_agents m' = 2.
Proof.
  apply (without_object_removes_column doctest_heap doctest_v
           (mkValuationMatrix 1%positive 2 3) (np.NdArray doctest_table 3) 1).
  - solve_is_matrix.
  - simpl. lia.
Defined.

Lemma without_only_object_witness :
  1 ≤ 2
  ∧ ∃ self' m' a' h',
      without_object column_u 0 column_heap = (Ok self', h')
      ∧ column_heap !! self' = None
      ∧ is_matrix h' self' m' a'
      ∧ num_of_agents m' = 2
      ∧ num_of_objects m' = 0.
Proof.
  apply (without_only_object column_heap column_u
           (mkValuationMatrix 1%positive 2 1) (np.NdArray column_table 1)).
  - solve_is_matrix.
  - reflexivity.
Defined.

(** C9.  Removing the only agent does not yield a matrix with zero agents:
    on the matrix returned by [v.without_agent(0)] in the doctests, which
    has one agent and three objects, [without_agent(0)] raises
    [IndexError] (for every matrix with one agent, lemma
    [without_only_agent]). *)
Lemma without_only_agent_counterexample :
  is_matrix reduced_heap reduced_v (mkValuationMatrix 3%positive 1 3)
    (np.NdArray single_table 3)
  ∧ fst (without_agent reduced_v 0 reduced_heap) = Raise IndexError
  ∧ ¬ ∃ self' m' h',
        without_agent reduced_v 0 reduced_heap = (Ok self', h')
        ∧ h' !! self' = Some (ObjMatrix m')
        ∧ num_of_agents m' = 0
        ∧ num_of_objects m' = 3.
Proof.
  split; [solve_is_matrix|]. split; [reflexivity|].
  intros (self' & m' & h' & E & _). apply (f_equal fst) in E. discriminate.
Qed.

Lemma without_only_agent_witness :
  without_agent single_w 0 single_heap =
    (Raise IndexError, <[fresh (dom single_heap) := ObjArray (np.NdArray [] 3)]> single_heap)
  ∧ 3 = 3.
Proof.
  apply (without_only_agent single_heap single_w
           (mkValuationMatrix 1%positive 1 3) (np.NdArray single_table 3)).
  - solve_is_matrix.
  - reflexivity.
Defined.


(** C6, as stated, fails on a matrix with a NaN cell: [equals] is not
    reflexive on [[nan, 1.0]]. *)
Lemma equals_nan_counterexample :
  is_matrix nan_heap nan_f (mkValuationMatrix 1%positive 1 2) (np.NdArray nan_table 2)
  ∧ equals nan_f nan_f nan_heap = (Ok false, nan_heap).
Proof. split; [solve_is_matrix|reflexivity]. Qed.

Lemma equals_same_shape_and_cells_witness :
  ∃ b : bool,
    equals doctest_v copy_c copy_heap = (Ok b, copy_heap)
    ∧ (b = true ↔
         2 = 2 ∧ 3 = 3
         ∧ ∀ i j : nat, Z.of_nat i < 2 → Z.of_nat j < 3 →
                        cell_eqb (np.NdArray doctest_table 3) (np.NdArray doctest_table 3) i j
                        = true)
    ∧ ((∀ x y : int64, scalar_eqb x y = scalar_eqb y x) →
       equals copy_c doctest_v copy_heap = (Ok b, copy_heap))
    ∧ (equals doctest_v doctest_v copy_heap = (Ok true, copy_heap) ↔ no_nan doctest_table).
Proof.
  apply (equals_same_shape_and_cells copy_heap doctest_v copy_c
           (mkValuationMatrix 1%positive 2 3) (mkValuationMatrix 3%positive 2 3)
           (np.NdArray doctest_table 3) (np.NdArray doctest_table 3)).
  - solve_is_matrix.
  - solve_is_matrix.
Defined.

(** C7, as stated, fails on a table with a NaN cell: [[nan, 1.0]] is
    rectangular and has a row, and the matrices constructed from it as a
    list of lists, from a dense array and from another matrix are not
    [equals]. *)
Lemma constructions_nan_counterexample :
  nan_table ≠ []
  ∧ Forall (λ r, length r = 2%nat) nan_table
  ∧ (f ← ValuationMatrix_init (PyList nan_table);
     d ← (a ← lift (np.array nan_table); alloc (ObjArray a));
     g ← ValuationMatrix_init (PyRef d);
     k ← ValuationMatrix_init (PyRef f);
     mret (f, g, k)) ∅ = (Ok (nan_f, nan_g, nan_k), nan_heap)
  ∧ equals nan_f nan_g nan_heap = (Ok false, nan_heap)
  ∧ equals nan_f nan_k nan_heap = (Ok false, nan_heap).
Proof.
  split; [discriminate|]. split; [repeat constructor|].
  split_and!; reflexivity.
Qed.

Lemma constructions_agree_witness :
  ∃ (m1 m2 m3 : loc) h',
    (m1 ← ValuationMatrix_init (PyList doctest_table);
     m2 ← ValuationMatrix_init (PyRef dense_d);
     m3 ← ValuationMatrix_init (PyRef doctest_v);
     mret (m1, m2, m3)) dense_heap = (Ok (m1, m2, m3), h')
    ∧ (∀ x y, x ∈ [m1; m2; m3] → y ∈ [m1; m2; m3] → equals x y h' = (Ok true, h'))
    ∧ (∀ x, x ∈ [m1; m2; m3] →
         ∃ mx, h' !! x = Some (ObjMatrix mx)
               ∧ num_of_agents mx = 2
               ∧ num_of_objects mx = 3).
Proof.
  apply (constructions_agree dense_heap doctest_table 3 dense_d doctest_v
           (np.NdArray doctest_table 3) (np.NdArray doctest_table 3)
           (mkValuationMatrix 1%positive 2 3)).
  - discriminate.
  - repeat constructor.
  - repeat constructor.
  - reflexivity.
  - repeat constructor.
  - reflexivity.
  - solve_is_matrix.
  - reflexivity.
Defined.

Lemma getitem_in_range_returns_witness :
  ∃ row x,
    ValuationMatrix_getitem doctest_v (KeyInt 0) doctest_heap = (Ok (ItemRow row), doctest_heap)
    ∧ ValuationMatrix_getitem doctest_v (KeyTuple [0; 1]) doctest_heap
      = (Ok (ItemValue x), doctest_heap)
    ∧ Z.of_nat (length row) = 3
    ∧ doctest_table !! Z.to_nat 0 = Some row
    ∧ row !! Z.to_nat 1 = Some x.
Proof.
  apply (getitem_in_range_returns doctest_heap doctest_v
           (mkValuationMatrix 1%positive 2 3) (np.NdArray doctest_table 3) 0 1).
  - solve_is_matrix.
  - simpl. lia.
  - simpl. lia.
Defined.

Lemma getitem_out_of_range_raises_witness :
  ValuationMatrix_getitem doctest_v (KeyTuple [2; 0]) doctest_heap = (Raise IndexError, doctest_heap)
  ∧ ((2 < - 2 ∨ 2 ≤ 2) →
     ValuationMatrix_getitem doctest_v (KeyInt 2) doctest_heap = (Raise IndexError, doctest_heap)).
Proof.
  apply (getitem_out_of_range_raises doctest_heap doctest_v
           (mkValuationMatrix 1%positive 2 3) (np.NdArray doctest_table 3) 2 0).
  - solve_is_matrix.
  - left. simpl. lia.
Defined.

Lemma getitem_negative_from_end_witness :
  ValuationMatrix_getitem doctest_v (KeyInt (-1)) doctest_heap =
    ValuationMatrix_getitem doctest_v (KeyInt (-1 + 2)) doctest_heap
  ∧ ValuationMatrix_getitem doctest_v (KeyTuple [-1; -3]) doctest_heap =
      ValuationMatrix_getitem doctest_v (KeyTuple [-1 + 2; -3 + 3]) doctest_heap.
Proof.
  apply (getitem_negative_from_end doctest_heap doctest_v
           (mkValuationMatrix 1%positive 2 3) (np.NdArray doctest_table 3) (-1) (-3)).
  - solve_is_matrix.
  - simpl. lia.
  - simpl. lia.
Defined.

Lemma agents_objects_enumerate_witness :
  ∃ la lo : list Z,
    agents doctest_v doctest_heap = (Ok la, doctest_heap)
    ∧ objects doctest_v doctest_heap = (Ok lo, doctest_heap)
    ∧ Z.of_nat (length la) = 2
    ∧ Z.of_nat (length lo) = 3
    ∧ (∀ (k : nat) (i : Z), la !! k = Some i → i = Z.of_nat k)
    ∧ (∀ (k : nat) (j : Z), lo !! k = Some j → j = Z.of_nat k)
    ∧ (∀ i j, i ∈ la → j ∈ lo →
         ∃ x, ValuationMatrix_getitem doctest_v (KeyTuple [i; j]) doctest_heap
              = (Ok (ItemValue x), doctest_heap)).
Proof.
  apply (agents_objects_enumerate doctest_heap doctest_v
           (mkValuationMatrix 1%positive 2 3) (np.NdArray doctest_table 3)).
  solve_is_matrix.
Defined.

Lemma bundle_value_additive_witness :
  ∃ x y : int64,
    agent_value_for_bundle doctest_v 0 (Some [0; 2]) doctest_heap = (Ok (NpScalar x), doctest_heap)
    ∧ agent_value_for_bundle doctest_v 0 (Some [1]) doctest_heap = (Ok (NpScalar y), doctest_heap)
    ∧ agent_value_for_bundle doctest_v 0 (Some ([0; 2] ++ [1])) doctest_heap
      = (Ok (NpScalar (scalar_add x y)), doctest_heap).
Proof.
  apply (bundle_value_additive doctest_heap doctest_v
           (mkValuationMatrix 1%positive 2 3) (np.NdArray doctest_table 3) 0 [0; 2] [1]).
  - solve_is_matrix.
  - simpl. lia.
  - repeat constructor; simpl; lia.
  - repeat constructor; simpl; lia.
  - discriminate.
  - discriminate.
Defined.

Lemma bundle_value_permutation_witness :
  agent_value_for_bundle doctest_v 1 (Some [0; 1; 2]) doctest_heap
  = agent_value_for_bundle doctest_v 1 (Some [1; 0; 2]) doctest_heap.
Proof.
  apply (bundle_value_permutation doctest_heap doctest_v
           (mkValuationMatrix 1%positive 2 3) (np.NdArray doctest_table 3) 1 [0; 1; 2] [1; 0; 2]).
  - solve_is_matrix.
  - simpl. lia.
  - repeat constructor; simpl; lia.
  - apply perm_swap.
Defined.

Lemma bundle_of_all_objects_witness :
  ∃ row,
    doctest_table !! Z.to_nat 0 = Some row
    ∧ (all ← objects doctest_v; agent_value_for_bundle doctest_v 0 (Some all)) doctest_heap
      = (Ok (sum row), doctest_heap).
Proof.
  apply (bundle_of_all_objects doctest_heap doctest_v
           (mkValuationMatrix 1%positive 2 3) (np.NdArray doctest_table 3) 0).
  - solve_is_matrix.
  - simpl. lia.
Defined.

Lemma getitem_is_singleton_bundle_witness :
  ValuationMatrix_getitem doctest_v (KeyTuple [1; 0]) doctest_heap
  = (c ← value_at doctest_v 1 0; mret (ItemValue c)) doctest_heap
  ∧ agent_value_for_bundle doctest_v 1 (Some [0]) doctest_heap
    = (c ← value_at doctest_v 1 0; mret (NpScalar c)) doctest_heap.
Proof.
  apply (getitem_is_singleton_bundle doctest_heap doctest_v
           (mkValuationMatrix 1%positive 2 3) (np.NdArray doctest_table 3) 1 0).
  - solve_is_matrix.
  - apply int64_zero_neutral.
Defined.

Lemma init_from_matrix_shares_array_witness :
  ∃ self,
    ValuationMatrix_init (PyRef doctest_v) doctest_heap
    = (Ok self, <[self := ObjMatrix (mkValuationMatrix 1%positive 2 3)]> doctest_heap)
    ∧ doctest_heap !! self = None
    ∧ is_matrix (<[self := ObjMatrix (mkValuationMatrix 1%positive 2 3)]> doctest_heap) self
        (mkValuationMatrix 1%positive 2 3) (np.NdArray doctest_table 3)
    ∧ is_matrix (<[self := ObjMatrix (mkValuationMatrix 1%positive 2 3)]> doctest_heap) doctest_v
        (mkValuationMatrix 1%positive 2 3) (np.NdArray doctest_table 3).
Proof.
  apply (init_from_matrix_shares_array doctest_heap doctest_v
           (mkValuationMatrix 1%positive 2 3) (np.NdArray doctest_table 3)).
  solve_is_matrix.
Defined.

Lemma init_from_table_reads_back_witness :
  ∃ self m h',
    ValuationMatrix_init (PyList doctest_table) doctest_heap = (Ok self, h')
    ∧ doctest_heap !! self = None
    ∧ doctest_heap !! _v m = None
    ∧ extends doctest_heap h'
    ∧ h' !! self = Some (ObjMatrix m)
    ∧ num_of_agents m = Z.of_nat (length doctest_table)
    ∧ num_of_objects m = Z.of_nat 3
    ∧ ∀ (i : nat) (row : list int64), doctest_table !! i = Some row →
        ValuationMatrix_getitem self (KeyInt (Z.of_nat i)) h' = (Ok (ItemRow row), h').
Proof.
  apply (init_from_table_reads_back doctest_heap doctest_table 3).
  - discriminate.
  - repeat constructor.
Defined.

Lemma reductions_out_of_range_raise_witness :
  without_agent doctest_v 2 doctest_heap = (Raise IndexError, doctest_heap)
  ∧ without_object doctest_v (-4) doctest_heap = (Raise IndexError, doctest_heap).
Proof.
  apply (reductions_out_of_range_raise doctest_heap doctest_v
           (mkValuationMatrix 1%positive 2 3) (np.NdArray doctest_table 3) 2 (-4)).
  - solve_is_matrix.
  - simpl. lia.
  - simpl. lia.
Defined.

Lemma reductions_negative_from_end_witness :
  without_agent doctest_v (-1) doctest_heap = without_agent doctest_v (-1 + 2) doctest_heap
  ∧ without_object doctest_v (-3) doctest_heap = without_object doctest_v (-3 + 3) doctest_heap.
Proof.
  destruct (reductions_negative_from_end doctest_heap doctest_v
              (mkValuationMatrix 1%positive 2 3) (np.NdArray doctest_table 3) (-1) (-3))
    as [Ha Ho].
  - solve_is_matrix.
  - split; [apply Ha|apply Ho]; simpl; lia.
Defined.

Lemma reductions_commute_witness :
  ∃ h',
    (x ← without_agent doctest_v 1;
     x' ← without_object x 2;
     y ← without_object doctest_v 2;
     y' ← without_agent y 1;
     equals x' y') doctest_heap = (Ok true, h').
Proof.
  apply (reductions_commute doctest_heap doctest_v
           (mkValuationMatrix 1%positive 2 3) (np.NdArray doctest_table 3) 1 2).
  - solve_is_matrix.
  - repeat constructor.
  - simpl. lia.
  - simpl. lia.
  - simpl. lia.
Defined.

Lemma without_object_keeps_values_witness :
  ∃ self' h',
    without_object doctest_v 1 doctest_heap = (Ok self', h')
    ∧ fst (agent_value_for_bundle self' 0 (Some [0; 1]) h')
      = fst (agent_value_for_bundle doctest_v 0 (Some (skip_index 1 <$> [0; 1])) doctest_heap).
Proof.
  apply (without_object_keeps_values doctest_heap doctest_v
           (mkValuationMatrix 1%positive 2 3) (np.NdArray doctest_table 3) 1 0 [0; 1]).
  - solve_is_matrix.
  - simpl. lia.
  - repeat constructor; simpl; lia.
Defined.

Lemma without_agent_keeps_values_witness :
  ∃ self' h',
    without_agent doctest_v 0 doctest_heap = (Ok self', h')
    ∧ fst (agent_value_for_bundle self' 0 (Some [1; 0]) h')
      = fst (agent_value_for_bundle doctest_v (skip_index 0 0) (Some [1; 0]) doctest_heap).
Proof.
  apply (without_agent_keeps_values doctest_heap doctest_v
           (mkValuationMatrix 1%positive 2 3) (np.NdArray doctest_table 3) 0 0 (Some [1; 0])).
  - solve_is_matrix.
  - simpl. lia.
  - simpl. lia.
  - simpl. lia.
Defined.

Lemma reductions_respect_equals_witness :
  (∃ h', (x' ← without_object doctest_v 2; y' ← without_object copy_c 2; equals x' y') copy_heap
         = (Ok true, h'))
  ∧ (∃ h', (x' ← without_agent doctest_v 1; y' ← without_agent copy_c 1; equals x' y') copy_heap
           = (Ok true, h')).
Proof.
  destruct (reductions_respect_equals copy_heap doctest_v copy_c
              (mkValuationMatrix 1%positive 2 3) (mkValuationMatrix 3%positive 2 3)
              (np.NdArray doctest_table 3) (np.NdArray doctest_table 3) 1 2)
    as [Ho Ha].
  - solve_is_matrix.
  - solve_is_matrix.
  - reflexivity.
  - split; [apply Ho|apply Ha]; simpl; lia.
Defined.

Lemma bundle_agent_out_of_range_witness :
  agent_value_for_bundle doctest_v 2 (Some [0; 1]) doctest_heap = (Raise IndexError, doctest_heap)
  ∧ agent_value_for_bundle doctest_v 2 (Some []) doctest_heap = (Ok (PyInt 0), doctest_heap).
Proof.
  apply (bundle_agent_out_of_range doctest_heap doctest_v
           (mkValuationMatrix 1%positive 2 3) (np.NdArray doctest_table 3) 2 0 [1]).
  - solve_is_matrix.
  - simpl. lia.
Defined.

Lemma bundle_value_is_left_sum_witness :
  ∃ cells : list float64,
    Forall2 (λ o c, cell (np.NdArray float_table 3) (Z.to_nat 0) (Z.to_nat o) = Some c)
            [1; 2; 0] cells
    ∧ agent_value_for_bundle float_r 0 (Some [1; 2; 0]) float_heap = (Ok (sum cells), float_heap).
Proof.
  apply (bundle_value_is_left_sum float_heap float_r
           (mkValuationMatrix 1%positive 1 3) (np.NdArray float_table 3) 0 [1; 2; 0]).
  - solve_is_matrix.
  - simpl. lia.
  - repeat constructor; simpl; lia.
Defined.
